(** * Practices: a React/TypeScript exercise (Button, CardComponent,
      DataFetcherComponent, App)

    A shallow embedding of the two source files of the repository:
    - [Button/Button.tsx]: the [Button] component;
    - the single-file application with [CardComponent],
      [DataFetcherComponent] and [App].

    A component is its render function, from props and hook state to a
    markup tree, together with the handlers that update the hook state.
    What React and the platform contribute is written out in [App.step]:
    - a component's hooks exist while it is mounted; a remount starts from
      the [useState] initial values, and an effect with dependency list
      [[]] runs once per mount;
    - a state setter belongs to the instance that created it;
    - the asynchronous [fetchData] is cut at its two [await]s and resumed
      when the awaited promise settles; the setter calls of one resumption
      are committed together;
    - how a request and the parsing of its body end is decided by the
      environment and enters as the payload of an event. *)

From Stdlib Require Import NArith ZArith DecimalString DecimalN.
From stdpp Require Import base option strings list gmap.

Local Open Scope string_scope.
Local Open Scope list_scope.

(** ** JavaScript values used by the components *)

(** A click count lives in a JS [number] (an IEEE-754 double).  Starting
    from [0] and only ever adding [1], the values reached are the integers
    [0 .. 2^53]: below [2^53] the sum [n + 1] is exact; [2^53 + 1] is not
    representable and rounds (ties to even) back to [2^53]. *)
Abbreviation number := N (only parsing).

Definition MAX_EXACT : number := (2 ^ 53)%N.

(** [n + 1] on a count [n] in [0 .. 2^53]. *)
Definition add1 (n : number) : number :=
  if (n <? MAX_EXACT)%N then (n + 1)%N else n.

(** [String(n)] for a non-negative integer below [1e21]: its decimal digits. *)
Definition decimal (n : N) : string :=
  NilEmpty.string_of_uint (N.to_uint n).

(** [s || d] on a [string | undefined] operand: the empty string and
    [undefined] are falsy. *)
Definition or_else (s : option string) (d : string) : string :=
  match s with
  | Some (String c r) => String c r
  | Some EmptyString | None => d
  end.

(** A JS [Error]: the components only read its [message]. *)
Record Error := { message : string }.

(** ** Markup produced by the render functions *)

#[warnings="-register-all"]
Inductive Node :=
| Text (s : string)
| Elem (tag : string) (className : string) (children : list Node).

(** The text a node displays: its text leaves, left to right. *)
Fixpoint textContent (n : Node) : string :=
  match n with
  | Text s => s
  | Elem _ _ cs => foldr (fun c acc => textContent c +:+ acc) "" cs
  end.

(** [sub] occurs in [s]. *)
Definition Includes (sub s : string) : Prop :=
  exists pre post, s = pre +:+ sub +:+ post.

Definition nl : string := String (Ascii.ascii_of_nat 10) "".

(** ** Button/Button.tsx *)
Module Button.

Inductive Variant := primary | secondary.

Definition Variant_eqb (a b : Variant) : bool :=
  match a, b with
  | primary, primary | secondary, secondary => true
  | _, _ => false
  end.

(** [ButtonProps]; the optional [onClick] handler is opaque to the
    component, so its type is a parameter. *)
Record ButtonProps (A : Type) := {
  variant : Variant;
  label : string;
  onClick : option A;
  disabled : option bool
}.
Arguments variant {A}. Arguments label {A}.
Arguments onClick {A}. Arguments disabled {A}.

Definition baseClasses : string :=
  "px-4 py-2 rounded font-semibold text-white transition-colors duration-200".

Definition variantClasses (v : Variant) : string :=
  if Variant_eqb v primary
  then "bg-blue-500 hover:bg-blue-600"
  else "bg-gray-500 hover:bg-gray-600".

(** The rendered [<button>]: its class attribute, handler, disabled flag
    and children. *)
Record Rendered (A : Type) := {
  r_className : string;
  r_onClick : option A;
  r_disabled : option bool;
  r_children : list Node
}.
Arguments r_className {A}. Arguments r_onClick {A}.
Arguments r_disabled {A}. Arguments r_children {A}.

Definition Button {A} (props : ButtonProps A) : Rendered A :=
  {| r_className := baseClasses +:+ " " +:+ variantClasses (variant props);
     r_onClick := onClick props;
     r_disabled := disabled props;
     r_children := [Text (label props)] |}.

End Button.

(** ** CardComponent *)
Module Card.

Record CardProps := {
  title : string;
  content : string;
  className : option string
}.

(** [useState<number>(0)] *)
Definition initial : number := 0%N.

(** [setClickCount(prevCount => prevCount + 1)] *)
Definition handleCardClick (clickCount : number) : number := add1 clickCount.

Definition CardComponent (props : CardProps) (clickCount : number) : Node :=
  Elem "div"
    (nl +:+ "        bg-white p-6 rounded-xl shadow-lg"
     +:+ nl +:+ "        transform transition-transform duration-200 hover:scale-105"
     +:+ nl +:+ "        cursor-pointer"
     +:+ nl +:+ "        " +:+ or_else (className props) ""
     +:+ nl +:+ "      ")
    [ Elem "h3" "text-xl font-bold text-gray-800 mb-2" [Text (title props)];
      Elem "p" "text-gray-600 leading-relaxed mb-4" [Text (content props)];
      Elem "div" "text-sm text-gray-500"
        [ Text "Clicked: "; Text (decimal clickCount); Text " time";
          Text (if negb (clickCount =? 1)%N then "s" else "") ] ].

(** What a rendered card displays. *)
Record Shown := {
  shown_title : string;
  shown_content : string;
  shown_counter : string
}.

Definition shown (n : Node) : option Shown :=
  match n with
  | Elem _ _ [h; p; c] =>
      Some {| shown_title := textContent h; shown_content := textContent p;
              shown_counter := textContent c |}
  | _ => None
  end.

End Card.

(** ** The API payload and the platform's [Response] *)
Module Post.

Record t := { id : Z; title : string; body : string }.

End Post.

(** A fetch [Response] as the component uses it: the [status], and how the
    promise returned by [response.json()] settles (rejected with a parse
    error, or fulfilled with a value of the declared type [Post | null]). *)
Record Response := {
  status : N;
  json : Error + option Post.t
}.

(** [response.ok]: the status is in the range 200-299 (Fetch standard). *)
Definition ok (r : Response) : bool :=
  ((200 <=? status r) && (status r <=? 299))%N.

(** ** DataFetcherComponent *)
Module DataFetcher.

Record State := {
  data : option Post.t;
  loading : bool;
  error : option Error
}.

(** The three [useState] initial values. *)
Definition initial : State :=
  {| data := None; loading := true; error := None |}.

(** What [fetchData] does to the outside, in program order: the calls of
    the state setters, the call of [fetch] that issues the request, and the
    report on the console. *)
Inductive Effect :=
| setData (d : option Post.t)
| setLoading (b : bool)
| setError (e : option Error)
| fetch (url : string)
| console_error (msg : string) (e : Error).

Definition apply (s : State) (c : Effect) : State :=
  match c with
  | setData d => {| data := d; loading := loading s; error := error s |}
  | setLoading b => {| data := data s; loading := b; error := error s |}
  | setError e => {| data := data s; loading := loading s; error := e |}
  | fetch _ => s
  | console_error _ _ => s
  end.

(** The number of requests a sequence of calls issues. *)
Fixpoint issued (cs : list Effect) : nat :=
  match cs with
  | [] => 0
  | fetch _ :: cs' => S (issued cs')
  | _ :: cs' => issued cs'
  end.

(** The fixed endpoint. *)
Definition endpoint : string := "https://jsonplaceholder.typicode.com/posts/1".

(** The state updates queued by one uninterrupted run of [fetchData] are
    applied together, in order, in one commit: the component does not
    render between [setData(json)] (or [setError(e)]) and the
    [setLoading(false)] of the [finally] clause. *)
Definition commit (s : State) (cs : list Effect) : State := foldl apply s cs.

(** Where [fetchData] is suspended. *)
Inductive Phase :=
| AwaitFetch
| AwaitJson (response : Response).

(** How a piece of the [try] block ends. *)
Inductive Completion :=
| Suspend (ph : Phase)
| Throw (e : Error)
| Return.

(** [try] block up to [await fetch(...)]. *)
Definition try_start : list Effect * Completion :=
  ([setLoading true; setError None; fetch endpoint], Suspend AwaitFetch).

(** [try] block from the settled [fetch] up to [await response.json()]. *)
Definition try_after_fetch (r : Error + Response) : list Effect * Completion :=
  match r with
  | inl e => ([], Throw e)
  | inr response =>
      if negb (ok response)
      then ([], Throw {| message := "HTTP error! status: " +:+ decimal (status response) |})
      else ([], Suspend (AwaitJson response))
  end.

(** [try] block from the settled [response.json()] to its end. *)
Definition try_after_json (j : Error + option Post.t) : list Effect * Completion :=
  match j with
  | inl e => ([], Throw e)
  | inr v => ([setData v], Return)
  end.

(** The [catch] and [finally] clauses around a piece of the [try] block. *)
Definition catch_finally (r : list Effect * Completion) : list Effect * option Phase :=
  match r with
  | (cs, Suspend ph) => (cs, Some ph)
  | (cs, Throw e) =>
      ((cs ++ [setError (Some e); console_error "Failed to fetch data:" e]
           ++ [setLoading false])%list, None)
  | (cs, Return) => ((cs ++ [setLoading false])%list, None)
  end.

Definition fetchData_start : list Effect * option Phase :=
  catch_finally try_start.

Definition fetchData_after_fetch (r : Error + Response) : list Effect * option Phase :=
  catch_finally (try_after_fetch r).

Definition fetchData_after_json (response : Response) : list Effect * option Phase :=
  catch_finally (try_after_json (json response)).

(** The markup of the loading branch. *)
Definition loadingView : Node :=
  Elem "div" "text-center py-10 text-xl font-medium text-blue-500" [Text "Loading..."].

(** The markup of the error branch, for [error.message = msg]. *)
Definition errorView (msg : string) : Node :=
  Elem "div" "text-center py-10 text-red-500"
    [ Elem "p" "text-2xl font-bold mb-2" [Text "Error!"];
      Elem "p" "text-sm" [Text "Could not fetch data. Please try again later."];
      Elem "p" "text-xs italic mt-1" [Text "Error message: "; Text msg] ].

(** The component's render function; [clickCount] is the state of the
    [CardComponent] child it renders once loaded. *)
Definition DataFetcherComponent (s : State) (clickCount : number) : Node :=
  if loading s then loadingView
  else
    match error s with
    | Some e => errorView (message e)
    | None =>
        Card.CardComponent
          {| Card.title := or_else (Post.title <$> data s) "No Title";
             Card.content := or_else (Post.body <$> data s) "No content found.";
             Card.className := Some "max-w-xl mx-auto" |}
          clickCount
    end.

(** The branch of the render function a state selects. *)
Inductive Tag := Loading | Failed | Loaded.

Definition tag (s : State) : Tag :=
  if loading s then Loading
  else match error s with Some _ => Failed | None => Loaded end.

End DataFetcher.

(** ** App, and the runtime that drives the components *)
Module App.

Import DataFetcher.

(** [type Page = 'home' | 'data'] *)
Inductive Page := home | data.

Definition Page_eqb (a b : Page) : bool :=
  match a, b with
  | home, home | data, data => true
  | _, _ => false
  end.

(** A mounted [DataFetcherComponent]: [iid] identifies this mount (the
    state setters captured by its [fetchData] are bound to it), [state] are
    its hooks and [clickCount] the hook of the card it renders once loaded. *)
Record Instance := {
  iid : nat;
  state : State;
  clickCount : number
}.

(** The mounted children of [App] with their hook state. *)
Inductive Content :=
| Home (c0 c1 c2 : number)
| Data (i : Instance).

(** One resumption of a [fetchData]: the instance its setters are bound to,
    what it called, and whether that instance was still mounted. *)
Record Delivery := {
  target : nat;
  calls : list Effect;
  live : bool
}.

(** The application at rest between two events: the [currentPage] hook of
    [App], the mounted children, the next instance number, the suspended
    [fetchData] calls by instance, the number of requests issued so far and
    the record of resumptions. *)
Record World := {
  currentPage : Page;
  content : Content;
  fresh : nat;
  tasks : gmap nat Phase;
  requests : nat;
  log : list Delivery
}.

(** [useState<Page>('home')] and the first render. *)
Definition initial : World :=
  {| currentPage := home; content := Home Card.initial Card.initial Card.initial;
     fresh := 0; tasks := ∅; requests := 0; log := [] |}.

(** What can happen: a click on a navigation button, a click on the
    [i]-th rendered card, the settling of the request issued by instance
    [k] (rejected with an error, or fulfilled with a response), and the
    settling of the body promise instance [k] is waiting for. *)
Inductive Event :=
| Select (p : Page)
| ClickCard (i : nat)
| FetchSettled (k : nat) (r : Error + Response)
| JsonSettled (k : nat).

(** A suspended [fetchData] waits in the task table; a finished one leaves it. *)
Definition park (k : nat) (ph : option Phase) (ts : gmap nat Phase) : gmap nat Phase :=
  match ph with
  | Some p => <[k := p]> ts
  | None => delete k ts
  end.

(** The setters called by the [fetchData] of instance [k] update the hooks
    of [k] if [k] is the mounted instance.  If it is not, there are no
    hooks left for them to update and nothing mounted changes; the calls
    are made all the same, and [log] records them.  Each call of [fetch]
    among them is one more request. *)
Definition deliver (k : nat) (cs : list Effect) (w : World) : World :=
  match content w with
  | Data i =>
      if decide (iid i = k) then
        {| currentPage := currentPage w;
           content := Data {| iid := iid i; state := commit (state i) cs;
                              clickCount := clickCount i |};
           fresh := fresh w; tasks := tasks w;
           requests := issued cs + requests w;
           log := log w ++ [{| target := k; calls := cs; live := true |}] |}
      else
        {| currentPage := currentPage w; content := content w;
           fresh := fresh w; tasks := tasks w;
           requests := issued cs + requests w;
           log := log w ++ [{| target := k; calls := cs; live := false |}] |}
  | Home _ _ _ =>
      {| currentPage := currentPage w; content := content w;
         fresh := fresh w; tasks := tasks w;
         requests := issued cs + requests w;
         log := log w ++ [{| target := k; calls := cs; live := false |}] |}
  end.

(** Rendering page [p] in place of the other one: the old children are
    unmounted (their hooks are gone), the new ones mount with their initial
    state; mounting [DataFetcherComponent] runs its effect, which starts
    [fetchData]: its calls up to the first [await] are made at once. *)
Definition mount (p : Page) (w : World) : World :=
  match p with
  | home =>
      {| currentPage := home;
         content := Home Card.initial Card.initial Card.initial;
         fresh := fresh w; tasks := tasks w; requests := requests w;
         log := log w |}
  | data =>
      let k := fresh w in
      let '(cs, ph) := fetchData_start in
      {| currentPage := data;
         content := Data {| iid := k; state := commit DataFetcher.initial cs;
                            clickCount := Card.initial |};
         fresh := S k; tasks := park k ph (tasks w);
         requests := issued cs + requests w;
         log := log w ++ [{| target := k; calls := cs; live := true |}] |}
  end.

Definition set_tasks (ts : gmap nat Phase) (w : World) : World :=
  {| currentPage := currentPage w; content := content w; fresh := fresh w;
     tasks := ts; requests := requests w; log := log w |}.

Definition set_content (c : Content) (w : World) : World :=
  {| currentPage := currentPage w; content := c; fresh := fresh w;
     tasks := tasks w; requests := requests w; log := log w |}.

(** A click on a rendered card runs its [handleCardClick]. *)
Definition click (i : nat) (c : Content) : Content :=
  match c with
  | Home c0 c1 c2 =>
      match i with
      | 0 => Home (Card.handleCardClick c0) c1 c2
      | 1 => Home c0 (Card.handleCardClick c1) c2
      | 2 => Home c0 c1 (Card.handleCardClick c2)
      | _ => c
      end
  | Data inst =>
      match i, tag (state inst) with
      | 0, Loaded =>
          Data {| iid := iid inst; state := state inst;
                  clickCount := Card.handleCardClick (clickCount inst) |}
      | _, _ => c
      end
  end.

Definition step (w : World) (e : Event) : World :=
  match e with
  | Select p =>
      (* setCurrentPage(p): setting the current value changes nothing *)
      if Page_eqb p (currentPage w) then w else mount p w
  | ClickCard i => set_content (click i (content w)) w
  | FetchSettled k r =>
      match tasks w !! k with
      | Some AwaitFetch =>
          let '(cs, ph) := fetchData_after_fetch r in
          deliver k cs (set_tasks (park k ph (tasks w)) w)
      | _ => w
      end
  | JsonSettled k =>
      match tasks w !! k with
      | Some (AwaitJson response) =>
          let '(cs, ph) := fetchData_after_json response in
          deliver k cs (set_tasks (park k ph (tasks w)) w)
      | _ => w
      end
  end.

Definition run (w : World) (es : list Event) : World := foldl step w es.

Definition reachable (w : World) : Prop := exists es, w = run initial es.

(** *** Rendering *)

Definition navClass (active : bool) : string :=
  "px-4 py-2 rounded-lg font-medium transition-colors " +:+
  (if active then "bg-blue-600 text-white shadow-lg"
   else "bg-gray-200 text-gray-800 hover:bg-gray-300").

Definition homeCards (c0 c1 c2 : number) : list Node :=
  [ Card.CardComponent
      {| Card.title := "Introduction to Components";
         Card.content := "This card is a reusable component. It takes a title and content as props and has its own internal state.";
         Card.className := None |} c0;
    Card.CardComponent
      {| Card.title := "TypeScript in Action";
         Card.content := "Props for this component are strictly typed using a TypeScript interface, ensuring we pass the correct data types.";
         Card.className := None |} c1;
    Card.CardComponent
      {| Card.title := "Local State Example";
         Card.content := "Clicking this card updates its local state (the click count) without affecting the other cards.";
         Card.className := None |} c2 ].

(** The [switch (currentPage)] of [App]. *)
Definition page (w : World) : list Node :=
  match currentPage w, content w with
  | home, Home c0 c1 c2 =>
      [Elem "div" "grid grid-cols-1 md:grid-cols-2 lg:grid-cols-3 gap-6" (homeCards c0 c1 c2)]
  | data, Data i =>
      [Elem "div" "flex justify-center" [DataFetcherComponent (state i) (clickCount i)]]
  | _, _ => []
  end.

Definition App (w : World) : Node :=
  Elem "div" "min-h-screen bg-gray-100 p-8 font-sans antialiased flex flex-col items-center"
    [ Elem "div" "w-full max-w-4xl mx-auto mb-8 text-center"
        [ Elem "h1" "text-4xl font-extrabold text-gray-900 mb-4"
            [Text "React & TypeScript Exercise"];
          Elem "p" "text-lg text-gray-600"
            [Text "This app demonstrates a reusable component and an API data fetcher with proper typing."] ];
      Elem "nav" "flex space-x-4 mb-8"
        [ Elem "button" (navClass (Page_eqb (currentPage w) home)) [Text "Reusable Component"];
          Elem "button" (navClass (Page_eqb (currentPage w) data)) [Text "API Fetcher"] ];
      Elem "div" "w-full max-w-4xl mx-auto" (page w) ].

(** *** Observations *)

(** The mounted [DataFetcherComponent] instance, if any. *)
Definition mounted (w : World) : option Instance :=
  match content w with
  | Data i => Some i
  | Home _ _ _ => None
  end.

(** The render branch of instance [k], while it is mounted. *)
Definition observe (k : nat) (w : World) : option Tag :=
  match mounted w with
  | Some i => if decide (iid i = k) then Some (tag (state i)) else None
  | None => None
  end.

(** The branches instance [k] goes through from [w] on, one entry per
    event, up to its unmount. *)
Fixpoint history (k : nat) (w : World) (es : list Event) : list Tag :=
  match observe k w with
  | None => []
  | Some t =>
      t :: match es with
           | [] => []
           | e :: es' => history k (step w e) es'
           end
  end.

(** The click counts of the rendered cards, in document order. *)
Definition counts (w : World) : list number :=
  match content w with
  | Home c0 c1 c2 => [c0; c1; c2]
  | Data i => match tag (state i) with Loaded => [clickCount i] | _ => [] end
  end.

End App.

(** ** Predicates used to state the properties *)

(** *** The three variants of the fetcher's state *)

Definition is_Loading (s : DataFetcher.State) : Prop :=
  DataFetcher.loading s = true /\ DataFetcher.error s = None /\ DataFetcher.data s = None.

Definition is_Failed (s : DataFetcher.State) : Prop :=
  DataFetcher.loading s = false /\ DataFetcher.error s <> None /\ DataFetcher.data s = None.

(** Loaded holds the parsed body, which is [null] when the body is the
    JSON text [null]. *)
Definition is_Loaded (s : DataFetcher.State) : Prop :=
  DataFetcher.loading s = false /\ DataFetcher.error s = None.

Definition exactly_one (A B C : Prop) : Prop :=
  (A /\ ~ B /\ ~ C) \/ (~ A /\ B /\ ~ C) \/ (~ A /\ ~ B /\ C).

(** *** Sample payloads *)

Definition post1 : Post.t := {| Post.id := 1; Post.title := "T"; Post.body := "B" |}.

Definition response200 : Response := {| status := 200; json := inr (Some post1) |}.

(** *** What the cards display *)

(** The counter line of a card whose count is [n]. *)
Definition counter_text (n : number) : string :=
  "Clicked: " +:+ decimal n +:+ " time" +:+ (if negb (n =? 1)%N then "s" else "").

(** The rendered cards, in document order. *)
Definition cards (w : App.World) : list Node :=
  match App.content w with
  | App.Home c0 c1 c2 => App.homeCards c0 c1 c2
  | App.Data i =>
      match DataFetcher.tag (App.state i) with
      | DataFetcher.Loaded =>
          [DataFetcher.DataFetcherComponent (App.state i) (App.clickCount i)]
      | _ => []
      end
  end.

(** The counter line displayed by card [i]. *)
Definition displayed_counter (w : App.World) (i : nat) : option string :=
  Card.shown_counter <$> (cards w !! i ≫= Card.shown).

(** *** Invariant of the runtime *)

(** The hooks of a mounted fetcher against the task table: while its
    [fetchData] is suspended the hooks have their initial values; once it
    has finished, loading is off and an error excludes data. *)
Definition instance_ok (ts : gmap nat DataFetcher.Phase) (i : App.Instance) : Prop :=
  match ts !! App.iid i with
  | Some _ => App.state i = DataFetcher.initial
  | None =>
      DataFetcher.loading (App.state i) = false /\
      (DataFetcher.error (App.state i) <> None ->
       DataFetcher.data (App.state i) = None)
  end.

Definition page_ok (w : App.World) : Prop :=
  match App.currentPage w, App.content w with
  | App.home, App.Home _ _ _ | App.data, App.Data _ => True
  | _, _ => False
  end.

Record Inv (w : App.World) : Prop := {
  inv_page : page_ok w;
  inv_fresh : forall j, is_Some (App.tasks w !! j) -> j < App.fresh w;
  inv_inst : forall i, App.mounted w = Some i ->
             App.iid i < App.fresh w /\ instance_ok (App.tasks w) i
}.

(** *** Further observations of the markup and of the runtime *)


(** The text on the navigation button of a page. *)
Definition nav_label (p : App.Page) : string :=
  match p with
  | App.home => "Reusable Component"
  | App.data => "API Fetcher"
  end.

(** The labels of the navigation buttons that [App] renders with the
    classes of the selected page. *)
Definition selected_nav (app : Node) : list string :=
  match app with
  | Elem _ _ [_; Elem _ _ buttons; _] =>
      omap (fun b =>
              match b with
              | Elem _ c [Text l] =>
                  if decide (c = App.navClass true) then Some l else None
              | _ => None
              end) buttons
  | _ => []
  end.

(** Every character is one of ['0'] .. ['9']. *)
Fixpoint digits (s : string) : bool :=
  match s with
  | EmptyString => true
  | String c r =>
      (48 <=? Ascii.nat_of_ascii c)%nat && (Ascii.nat_of_ascii c <=? 57)%nat
      && digits r
  end.

(** The event makes [DataFetcherComponent] mount, which runs its effect. *)
Definition mounts_fetcher (w : App.World) (e : App.Event) : bool :=
  match e with
  | App.Select App.data => App.Page_eqb (App.currentPage w) App.home
  | _ => false
  end.

(** The setter calls one resumption of [fetchData] can make. *)
Inductive resumption : list DataFetcher.Effect -> Prop :=
| resumption_start :
    resumption [DataFetcher.setLoading true; DataFetcher.setError None;
                DataFetcher.fetch DataFetcher.endpoint]
| resumption_wait : resumption []
| resumption_loaded v :
    resumption [DataFetcher.setData v; DataFetcher.setLoading false]
| resumption_failed e :
    resumption [DataFetcher.setError (Some e);
                DataFetcher.console_error "Failed to fetch data:" e;
                DataFetcher.setLoading false].

(** The event is the settling of a promise awaited by an instance other
    than [k]. *)
Definition settles_other (k : nat) (e : App.Event) : Prop :=
  match e with
  | App.FetchSettled j _ | App.JsonSettled j => j <> k
  | _ => False
  end.

(** * Properties *)

(** ** Strings and numbers *)

Lemma append_cons (c : Ascii.ascii) (a b : string) :
  String c a +:+ b = String c (a +:+ b).
Proof. reflexivity. Qed.

Lemma append_nil_r (s : string) : s +:+ "" = s.
Proof.
  induction s as [|c s IH]; [reflexivity|].
  now rewrite append_cons, IH.
Qed.

Lemma append_assoc (a b c : string) : (a +:+ b) +:+ c = a +:+ (b +:+ c).
Proof.
  induction a as [|x a IH]; [reflexivity|].
  now rewrite !append_cons, IH.
Qed.

Lemma Includes_suffix (pre s : string) : Includes s (pre +:+ s).
Proof. exists pre, "". now rewrite append_nil_r. Qed.

Lemma Includes_app_r (sub a b : string) : Includes sub b -> Includes sub (a +:+ b).
Proof.
  intros (pre & post & ->). exists (a +:+ pre), post.
  now rewrite append_assoc.
Qed.

Lemma Includes_app_l (sub a b : string) : Includes sub a -> Includes sub (a +:+ b).
Proof.
  intros (pre & post & ->). exists pre, (post +:+ b).
  now rewrite !append_assoc.
Qed.

Example decimal_404 : decimal 404 = "404".
Proof. reflexivity. Qed.

Example decimal_0 : decimal 0 = "0".
Proof. reflexivity. Qed.

Example add1_below : add1 41%N = 42%N.
Proof. reflexivity. Qed.

Example add1_at_limit : add1 9007199254740992%N = 9007199254740992%N.
Proof. reflexivity. Qed.

(** ** Button *)

(** C9. The [variant] prop has exactly the two values [primary] and
    [secondary]; whatever the other props, [primary] gives the button the
    blue classes and [secondary] the gray ones, after the base classes. *)
Theorem Button_variant_mapping (A : Type) (props : Button.ButtonProps A) :
  (Button.variant props = Button.primary \/ Button.variant props = Button.secondary) /\
  Button.variantClasses (Button.variant props) =
    match Button.variant props with
    | Button.primary => "bg-blue-500 hover:bg-blue-600"
    | Button.secondary => "bg-gray-500 hover:bg-gray-600"
    end /\
  Button.r_className (Button.Button props) =
    Button.baseClasses +:+ " " +:+
    match Button.variant props with
    | Button.primary => "bg-blue-500 hover:bg-blue-600"
    | Button.secondary => "bg-gray-500 hover:bg-gray-600"
    end.
Proof.
  destruct props as [v l h d]; simpl.
  destruct v; repeat split; auto.
Qed.

(** ** Rendering *)

Lemma textContent_single (t c s : string) : textContent (Elem t c [Text s]) = s.
Proof. simpl. apply append_nil_r. Qed.

Lemma shown_CardComponent (props : Card.CardProps) (n : number) :
  Card.shown (Card.CardComponent props n) =
  Some {| Card.shown_title := Card.title props;
          Card.shown_content := Card.content props;
          Card.shown_counter :=
            "Clicked: " +:+ decimal n +:+ " time" +:+
            (if negb (n =? 1)%N then "s" else "") |}.
Proof.
  unfold Card.CardComponent, Card.shown.
  rewrite !textContent_single. simpl. now rewrite append_nil_r.
Qed.

Lemma Loaded_renders_card (s : DataFetcher.State) (n : number) :
  DataFetcher.tag s = DataFetcher.Loaded ->
  DataFetcher.DataFetcherComponent s n =
  Card.CardComponent
    {| Card.title := or_else (Post.title <$> DataFetcher.data s) "No Title";
       Card.content := or_else (Post.body <$> DataFetcher.data s) "No content found.";
       Card.className := Some "max-w-xl mx-auto" |} n.
Proof.
  unfold DataFetcher.tag, DataFetcher.DataFetcherComponent.
  destruct (DataFetcher.loading s); [discriminate|].
  destruct (DataFetcher.error s); [discriminate|]. reflexivity.
Qed.

(** C10. In the Loaded branch the card shows ['No Title'] in place of an
    empty title, ['No content found.'] in place of an empty body, and both
    when the payload is [null]; a non-empty field is shown as it is. *)
Theorem Loaded_fallbacks (s : DataFetcher.State) (n : number) :
  DataFetcher.tag s = DataFetcher.Loaded ->
  exists sh,
    Card.shown (DataFetcher.DataFetcherComponent s n) = Some sh /\
    (DataFetcher.data s = None ->
       Card.shown_title sh = "No Title" /\
       Card.shown_content sh = "No content found.") /\
    (forall p, DataFetcher.data s = Some p ->
       (Post.title p = "" -> Card.shown_title sh = "No Title") /\
       (Post.body p = "" -> Card.shown_content sh = "No content found.") /\
       (Post.title p <> "" -> Card.shown_title sh = Post.title p) /\
       (Post.body p <> "" -> Card.shown_content sh = Post.body p)).
Proof.
  intros Ht. rewrite (Loaded_renders_card s n Ht), shown_CardComponent.
  eexists; split; [reflexivity|]. simpl. split.
  - intros ->. split; reflexivity.
  - intros [i t b] ->. simpl. repeat split.
    + intros ->. reflexivity.
    + intros ->. reflexivity.
    + destruct t; [congruence | reflexivity].
    + destruct b; [congruence | reflexivity].
Qed.

Lemma Loaded_fallbacks_witness :
  let s := {| DataFetcher.data := Some {| Post.id := 1; Post.title := ""; Post.body := "" |};
              DataFetcher.loading := false; DataFetcher.error := None |} in
  DataFetcher.tag s = DataFetcher.Loaded /\
  exists sh,
    Card.shown (DataFetcher.DataFetcherComponent s 0%N) = Some sh /\
    (DataFetcher.data s = None ->
       Card.shown_title sh = "No Title" /\
       Card.shown_content sh = "No content found.") /\
    (forall p, DataFetcher.data s = Some p ->
       (Post.title p = "" -> Card.shown_title sh = "No Title") /\
       (Post.body p = "" -> Card.shown_content sh = "No content found.") /\
       (Post.title p <> "" -> Card.shown_title sh = Post.title p) /\
       (Post.body p <> "" -> Card.shown_content sh = Post.body p)).
Proof.
  split; [reflexivity|].
  apply (Loaded_fallbacks
           {| DataFetcher.data := Some {| Post.id := 1; Post.title := ""; Post.body := "" |};
              DataFetcher.loading := false; DataFetcher.error := None |} 0%N).
  reflexivity.
Defined.

(** ** One activation of the data fetcher *)

Section Activation.

Import DataFetcher App.

Variable w0 : World.
Hypothesis at_home : currentPage w0 = home.

Let k := fresh w0.

(** Selecting [data] from [home]: a fresh instance in its initial state,
    its [fetchData] suspended on the request. *)
Lemma step_Select_data :
  step w0 (Select data) =
  {| currentPage := data;
     content := Data {| iid := k; state := DataFetcher.initial; clickCount := Card.initial |};
     fresh := S k;
     tasks := <[k := AwaitFetch]> (tasks w0);
     requests := S (requests w0);
     log := log w0 ++ [{| target := k; calls := [setLoading true; setError None; fetch endpoint];
                           live := true |}] |}.
Proof. unfold step. rewrite at_home. reflexivity. Qed.

(** The request fails, or answers with a status outside 200-299: the
    instance commits the error and leaves loading. *)
Lemma activation_fetch_fails (r : Error + Response) (e : Error) :
  try_after_fetch r = ([], Throw e) ->
  step (step w0 (Select data)) (FetchSettled k r) =
  {| currentPage := data;
     content := Data {| iid := k;
                        state := {| DataFetcher.data := None; loading := false;
                                    error := Some e |};
                        clickCount := Card.initial |};
     fresh := S k;
     tasks := delete k (<[k := AwaitFetch]> (tasks w0));
     requests := S (requests w0);
     log := (log w0 ++ [{| target := k; calls := [setLoading true; setError None; fetch endpoint];
                           live := true |}])
            ++ [{| target := k;
                   calls := [setError (Some e); console_error "Failed to fetch data:" e;
                             setLoading false];
                   live := true |}] |}.
Proof.
  intros Hr. rewrite step_Select_data. unfold step; simpl.
  rewrite lookup_insert_eq. unfold fetchData_after_fetch. rewrite Hr. simpl.
  unfold deliver; simpl. rewrite decide_True by reflexivity. reflexivity.
Qed.

(** The request answers with an ok status: nothing is committed yet,
    [fetchData] now waits for the body. *)
Lemma activation_fetch_ok (response : Response) :
  ok response = true ->
  step (step w0 (Select data)) (FetchSettled k (inr response)) =
  {| currentPage := data;
     content := Data {| iid := k; state := DataFetcher.initial; clickCount := Card.initial |};
     fresh := S k;
     tasks := <[k := AwaitJson response]> (<[k := AwaitFetch]> (tasks w0));
     requests := S (requests w0);
     log := (log w0 ++ [{| target := k; calls := [setLoading true; setError None; fetch endpoint];
                           live := true |}])
            ++ [{| target := k; calls := []; live := true |}] |}.
Proof.
  intros Hok. rewrite step_Select_data. unfold step; simpl.
  rewrite lookup_insert_eq. unfold fetchData_after_fetch, try_after_fetch.
  rewrite Hok. simpl.
  unfold deliver; simpl. rewrite decide_True by reflexivity. reflexivity.
Qed.

(** The world once the body of an ok response has settled. *)
Lemma activation_json (response : Response) :
  ok response = true ->
  run w0 [Select data; FetchSettled k (inr response); JsonSettled k] =
  {| currentPage := data;
     content :=
       Data {| iid := k;
               state := match json response with
                        | inl e => {| DataFetcher.data := None; loading := false;
                                      error := Some e |}
                        | inr v => {| DataFetcher.data := v; loading := false;
                                      error := None |}
                        end;
               clickCount := Card.initial |};
     fresh := S k;
     tasks := delete k (<[k := AwaitJson response]> (<[k := AwaitFetch]> (tasks w0)));
     requests := S (requests w0);
     log := ((log w0 ++ [{| target := k; calls := [setLoading true; setError None; fetch endpoint];
                            live := true |}])
             ++ [{| target := k; calls := []; live := true |}])
            ++ [{| target := k;
                   calls := match json response with
                            | inl e => [setError (Some e);
                                        console_error "Failed to fetch data:" e;
                                        setLoading false]
                            | inr v => [setData v; setLoading false]
                            end;
                   live := true |}] |}.
Proof.
  intros Hok.
  change (run w0 [Select data; FetchSettled k (inr response); JsonSettled k])
    with (step (step (step w0 (Select data)) (FetchSettled k (inr response)))
               (JsonSettled k)).
  rewrite (activation_fetch_ok _ Hok).
  unfold step; simpl. rewrite lookup_insert_eq.
  unfold fetchData_after_json. destruct (json response) as [e|v]; simpl;
    unfold deliver; simpl; rewrite decide_True by reflexivity; reflexivity.
Qed.

End Activation.

Lemma Failed_renders_error (s : DataFetcher.State) (e : Error) (n : number) :
  DataFetcher.loading s = false -> DataFetcher.error s = Some e ->
  DataFetcher.DataFetcherComponent s n = DataFetcher.errorView (message e).
Proof.
  intros Hl He. unfold DataFetcher.DataFetcherComponent. now rewrite Hl, He.
Qed.

Lemma errorView_includes (sub msg : string) :
  Includes sub msg -> Includes sub (textContent (DataFetcher.errorView msg)).
Proof.
  intros H. unfold DataFetcher.errorView.
  change (Includes sub
    ("Error!" +:+ ("Could not fetch data. Please try again later." +:+ "") +:+
     (("Error message: " +:+ msg +:+ "") +:+ ""))).
  do 2 apply Includes_app_r. apply Includes_app_l.
  apply Includes_app_r. now apply Includes_app_l.
Qed.

(** C4. When the response has a status outside 200-299, the freshly
    mounted fetcher ends in the Failed branch with the error message
    ["HTTP error! status: <status>"] and loading off; the error view it
    renders contains the status in decimal, for a 404 the text ["404"]. *)
Theorem non_ok_status_Failed (w0 : App.World) (response : Response) :
  App.currentPage w0 = App.home ->
  ok response = false ->
  let k := App.fresh w0 in
  let w := App.run w0 [App.Select App.data; App.FetchSettled k (inr response)] in
  let msg := "HTTP error! status: " +:+ decimal (status response) in
  App.mounted w =
    Some {| App.iid := k;
            App.state := {| DataFetcher.data := None; DataFetcher.loading := false;
                            DataFetcher.error := Some {| message := msg |} |};
            App.clickCount := Card.initial |} /\
  App.observe k w = Some DataFetcher.Failed /\
  App.page w = [Elem "div" "flex justify-center" [DataFetcher.errorView msg]] /\
  Includes (decimal (status response)) (textContent (DataFetcher.errorView msg)) /\
  (status response = 404%N -> Includes "404" (textContent (DataFetcher.errorView msg))).
Proof.
  intros Hh Hok k w msg.
  assert (Hw : w = App.step (App.step w0 (App.Select App.data))
                            (App.FetchSettled (App.fresh w0) (inr response)))
    by reflexivity.
  rewrite (activation_fetch_fails w0 Hh (inr response) {| message := msg |}) in Hw.
  2:{ unfold DataFetcher.try_after_fetch. now rewrite Hok. }
  rewrite Hw. unfold App.mounted, App.observe, App.page; simpl.
  rewrite decide_True by reflexivity.
  assert (Hi : Includes (decimal (status response)) (textContent (DataFetcher.errorView msg))).
  { apply errorView_includes. apply Includes_suffix. }
  repeat split; try reflexivity; try exact Hi.
  intros H404. rewrite H404 in Hi. exact Hi.
Qed.

Lemma non_ok_status_Failed_witness :
  let response := {| status := 404; json := inl {| message := "" |} |} in
  App.currentPage App.initial = App.home /\
  ok response = false /\
  App.observe 0 (App.run App.initial
                   [App.Select App.data; App.FetchSettled 0 (inr response)])
    = Some DataFetcher.Failed /\
  Includes "404" (textContent (DataFetcher.errorView "HTTP error! status: 404")).
Proof.
  split; [reflexivity|]. split; [reflexivity|].
  destruct (non_ok_status_Failed App.initial
              {| status := 404; json := inl {| message := "" |} |}
              eq_refl eq_refl) as (_ & Hobs & _ & _ & H404).
  split; [exact Hobs | exact (H404 eq_refl)].
Defined.

(** C5. When the body of an ok response fails to parse, the freshly
    mounted fetcher ends in the Failed branch (not Loaded), holding the
    parse error, with loading off and its [fetchData] finished. *)
Theorem malformed_json_Failed (w0 : App.World) (response : Response) (e : Error) :
  App.currentPage w0 = App.home ->
  ok response = true ->
  json response = inl e ->
  let k := App.fresh w0 in
  let w := App.run w0 [App.Select App.data; App.FetchSettled k (inr response);
                       App.JsonSettled k] in
  App.mounted w =
    Some {| App.iid := k;
            App.state := {| DataFetcher.data := None; DataFetcher.loading := false;
                            DataFetcher.error := Some e |};
            App.clickCount := Card.initial |} /\
  App.observe k w = Some DataFetcher.Failed /\
  App.page w = [Elem "div" "flex justify-center" [DataFetcher.errorView (message e)]].
Proof.
  intros Hh Hok Hj k w.
  pose proof (activation_json w0 Hh response Hok) as Hw. rewrite Hj in Hw.
  subst w k. rewrite Hw. unfold App.mounted, App.observe, App.page; simpl.
  rewrite decide_True by reflexivity. repeat split; reflexivity.
Qed.

Lemma malformed_json_Failed_witness :
  let response := {| status := 200; json := inl {| message := "Unexpected token" |} |} in
  App.currentPage App.initial = App.home /\
  ok response = true /\
  json response = inl {| message := "Unexpected token" |} /\
  App.observe 0 (App.run App.initial
                   [App.Select App.data; App.FetchSettled 0 (inr response);
                    App.JsonSettled 0])
    = Some DataFetcher.Failed.
Proof.
  repeat (split; [reflexivity|]).
  exact (proj1 (proj2 (malformed_json_Failed App.initial
           {| status := 200; json := inl {| message := "Unexpected token" |} |}
           {| message := "Unexpected token" |} eq_refl eq_refl eq_refl))).
Defined.

(** C6. When the response has status 200 and its body parses to
    [{id: 1, title: "T", body: "B"}], the freshly mounted fetcher ends in
    the Loaded branch and renders a card whose title is ["T"] and whose
    content is ["B"]. *)
Theorem Loaded_post_displayed (w0 : App.World) :
  App.currentPage w0 = App.home ->
  let k := App.fresh w0 in
  let post := {| Post.id := 1; Post.title := "T"; Post.body := "B" |} in
  let response := {| status := 200; json := inr (Some post) |} in
  let w := App.run w0 [App.Select App.data; App.FetchSettled k (inr response);
                       App.JsonSettled k] in
  let card := Card.CardComponent
                {| Card.title := "T"; Card.content := "B";
                   Card.className := Some "max-w-xl mx-auto" |} Card.initial in
  App.observe k w = Some DataFetcher.Loaded /\
  App.page w = [Elem "div" "flex justify-center" [card]] /\
  Card.shown card =
    Some {| Card.shown_title := "T"; Card.shown_content := "B";
            Card.shown_counter := "Clicked: 0 times" |}.
Proof.
  intros Hh k post response w card.
  pose proof (activation_json w0 Hh response eq_refl) as Hw.
  subst w k. rewrite Hw. unfold App.observe, App.mounted, App.page; simpl.
  rewrite decide_True by reflexivity. repeat split; reflexivity.
Qed.

Lemma Loaded_post_displayed_witness :
  let post := {| Post.id := 1; Post.title := "T"; Post.body := "B" |} in
  let response := {| status := 200; json := inr (Some post) |} in
  App.currentPage App.initial = App.home /\
  App.observe 0 (App.run App.initial
                   [App.Select App.data; App.FetchSettled 0 (inr response);
                    App.JsonSettled 0])
    = Some DataFetcher.Loaded.
Proof.
  split; [reflexivity|].
  exact (proj1 (Loaded_post_displayed App.initial eq_refl)).
Defined.

(** ** What [fetchData] emits *)

Section FetchData.

Import DataFetcher.

Lemma fetchData_after_fetch_cases (r : Error + Response) :
  (exists response, r = inr response /\ ok response = true /\
     fetchData_after_fetch r = ([], Some (AwaitJson response))) \/
  (exists e, fetchData_after_fetch r =
     ([setError (Some e); console_error "Failed to fetch data:" e; setLoading false],
      None)).
Proof.
  unfold fetchData_after_fetch, try_after_fetch.
  destruct r as [e | response].
  - right. exists e. reflexivity.
  - destruct (ok response) eqn:Hok; simpl.
    + left. exists response. auto.
    + right. eexists. reflexivity.
Qed.

Lemma fetchData_after_json_cases (response : Response) :
  (exists v, json response = inr v /\
     fetchData_after_json response = ([setData v; setLoading false], None)) \/
  (exists e, json response = inl e /\
     fetchData_after_json response =
     ([setError (Some e); console_error "Failed to fetch data:" e; setLoading false],
      None)).
Proof.
  unfold fetchData_after_json, try_after_json.
  destruct (json response) as [e | v]; [right | left]; eexists; split; reflexivity.
Qed.

End FetchData.

(** ** The invariant holds in every reachable state *)

Section Invariant.

Import DataFetcher App.

Lemma park_lookup_eq k ph (ts : gmap nat Phase) : park k ph ts !! k = ph.
Proof.
  destruct ph; simpl; [apply lookup_insert_eq | apply lookup_delete_eq].
Qed.

Lemma park_lookup_ne k j ph (ts : gmap nat Phase) :
  k <> j -> park k ph ts !! j = ts !! j.
Proof.
  intros Hne. destruct ph; simpl;
    [now apply lookup_insert_ne | now apply lookup_delete_ne].
Qed.

Lemma Inv_initial : Inv App.initial.
Proof.
  split.
  - exact I.
  - intros j [x Hx]. simpl in Hx. rewrite lookup_empty in Hx. discriminate.
  - intros i Hi. discriminate.
Qed.

(** Resuming the [fetchData] of [k] with effects [cs] and next phase [ph]. *)
Lemma Inv_resume w k cs ph :
  Inv w ->
  is_Some (tasks w !! k) ->
  (cs = [] /\ is_Some ph) \/
  (ph = None /\
   loading (commit DataFetcher.initial cs) = false /\
   (error (commit DataFetcher.initial cs) <> None ->
    DataFetcher.data (commit DataFetcher.initial cs) = None)) ->
  Inv (deliver k cs (set_tasks (park k ph (tasks w)) w)).
Proof.
  intros [Hp Hf Hi] Hk Hcs.
  assert (Hfresh : forall j, is_Some (park k ph (tasks w) !! j) -> j < fresh w).
  { intros j Hj. destruct (decide (k = j)) as [<- | Hne]; [now apply Hf|].
    rewrite park_lookup_ne in Hj by assumption. now apply Hf. }
  unfold deliver, set_tasks; simpl.
  destruct (content w) as [c0 c1 c2 | i] eqn:Hc.
  - split; simpl.
    + unfold page_ok in *; simpl. now rewrite Hc in Hp.
    + exact Hfresh.
    + unfold mounted; simpl. discriminate.
  - destruct (Hi i) as [Hlt Hok]; [unfold mounted; now rewrite Hc|].
    destruct (decide (iid i = k)) as [Heq | Hne]; split; simpl.
    + unfold page_ok in *; simpl. rewrite Hc in Hp. exact Hp.
    + exact Hfresh.
    + unfold mounted; simpl. intros i' [= <-]. simpl. split; [exact Hlt|].
      unfold instance_ok in *; simpl. rewrite Heq. rewrite park_lookup_eq.
      rewrite Heq in Hok. destruct Hk as [x Hx]. rewrite Hx in Hok.
      rewrite Hok.
      destruct Hcs as [[-> [p ->]] | (-> & Hl & He)]; [reflexivity | auto].
    + unfold page_ok in *; simpl. now rewrite Hc in Hp.
    + exact Hfresh.
    + unfold mounted; simpl. intros i' [= <-]. split; [exact Hlt|].
      unfold instance_ok in *. rewrite park_lookup_ne by congruence. exact Hok.
Qed.

Lemma Inv_step w e : Inv w -> Inv (step w e).
Proof.
  intros HI. destruct e as [p | n | k r | k]; simpl.
  - destruct (Page_eqb p (currentPage w)); [exact HI|].
    destruct HI as [Hp Hf Hi]. destruct p; simpl.
    + split; simpl; [exact I | exact Hf | discriminate].
    + split; simpl.
      * exact I.
      * intros j Hj. destruct (decide (fresh w = j)) as [<- | Hne]; [lia|].
        rewrite lookup_insert_ne in Hj by assumption. apply Hf in Hj. lia.
      * unfold mounted; simpl. intros i [= <-]. simpl. split; [lia|].
        unfold instance_ok; simpl. now rewrite lookup_insert_eq.
  - destruct HI as [Hp Hf Hi]. unfold set_content, click.
    destruct (content w) as [c0 c1 c2 | i] eqn:Hc.
    + split; simpl.
      * unfold page_ok in *; simpl. rewrite Hc in Hp.
        destruct (currentPage w); [|destruct Hp].
        destruct n as [|[|[|n]]]; exact I.
      * exact Hf.
      * unfold mounted; simpl. destruct n as [|[|[|n]]]; discriminate.
    + destruct (Hi i) as [Hlt Hok]; [unfold mounted; now rewrite Hc|].
      split; simpl.
      * unfold page_ok in *; simpl. rewrite Hc in Hp.
        destruct (currentPage w); [destruct Hp|].
        destruct n; [destruct (tag (state i))|]; exact I.
      * exact Hf.
      * unfold mounted; simpl. intros i' Hi'.
        assert (iid i' = iid i /\ state i' = state i) as [E1 E2].
        { destruct n; [destruct (tag (state i))|];
            injection Hi' as <-; split; reflexivity. }
        unfold instance_ok in *. rewrite E1, E2. split; assumption.
  - destruct (tasks w !! k) as [[| response] |] eqn:Hk; try exact HI.
    destruct (fetchData_after_fetch_cases r)
      as [(response & -> & Hok & ->) | (e & ->)];
      (apply Inv_resume; [exact HI | rewrite Hk; eauto |]).
    + left. split; [reflexivity | eauto].
    + right. simpl. repeat split; congruence.
  - destruct (tasks w !! k) as [[| response] |] eqn:Hk; try exact HI.
    destruct (fetchData_after_json_cases response)
      as [(v & _ & ->) | (e & _ & ->)];
      (apply Inv_resume; [exact HI | rewrite Hk; eauto |]);
      right; simpl; repeat split; congruence.
Qed.

Lemma Inv_run w es : Inv w -> Inv (run w es).
Proof.
  revert w. induction es as [|e es IH]; intros w HI; [exact HI|].
  apply IH, Inv_step, HI.
Qed.

Lemma reachable_Inv w : reachable w -> Inv w.
Proof. intros [es ->]. apply Inv_run, Inv_initial. Qed.

End Invariant.

(** ** The three variants *)

(** C3. In every reachable state, the hooks of the mounted fetcher fit
    exactly one of Loading, Failed and Loaded, the one its render branch
    shows: it never holds an error together with data, and while loading
    it holds neither. *)
Theorem single_variant_invariant (w : App.World) (i : App.Instance) :
  App.reachable w ->
  App.mounted w = Some i ->
  let s := App.state i in
  exactly_one (is_Loading s) (is_Failed s) (is_Loaded s) /\
  match DataFetcher.tag s with
  | DataFetcher.Loading => is_Loading s
  | DataFetcher.Failed => is_Failed s
  | DataFetcher.Loaded => is_Loaded s
  end /\
  ~ (DataFetcher.error s <> None /\ DataFetcher.data s <> None) /\
  (DataFetcher.loading s = true ->
   DataFetcher.error s = None /\ DataFetcher.data s = None).
Proof.
  intros Hr Hm s. apply reachable_Inv in Hr.
  destruct (inv_inst w Hr i Hm) as [_ Hok].
  unfold instance_ok in Hok. fold s in Hok.
  unfold exactly_one, is_Loading, is_Failed, is_Loaded, DataFetcher.tag.
  destruct (App.tasks w !! App.iid i).
  - rewrite Hok. simpl. intuition congruence.
  - destruct Hok as [Hl He]. rewrite Hl.
    destruct (DataFetcher.error s) as [e|] eqn:Hes.
    + assert (Hd : DataFetcher.data s = None) by (apply He; congruence).
      rewrite Hd. intuition congruence.
    + intuition congruence.
Qed.

Lemma single_variant_invariant_witness :
  let w := App.run App.initial [App.Select App.data] in
  let i := {| App.iid := 0; App.state := DataFetcher.initial;
              App.clickCount := Card.initial |} in
  App.reachable w /\ App.mounted w = Some i /\
  exactly_one (is_Loading (App.state i)) (is_Failed (App.state i))
              (is_Loaded (App.state i)).
Proof.
  split; [exists [App.Select App.data]; reflexivity|].
  split; [reflexivity|].
  exact (proj1 (single_variant_invariant
                  (App.run App.initial [App.Select App.data])
                  {| App.iid := 0; App.state := DataFetcher.initial;
                     App.clickCount := Card.initial |}
                  (ex_intro _ [App.Select App.data] eq_refl) eq_refl)).
Defined.

(** ** The branches one activation goes through *)

Section History.

Import DataFetcher App.

Lemma observe_Some k w T :
  observe k w = Some T <->
  exists i, content w = Data i /\ iid i = k /\ tag (state i) = T.
Proof.
  unfold observe, mounted. split.
  - destruct (content w) as [| i]; [discriminate|].
    destruct (decide (iid i = k)); [|discriminate].
    intros [= <-]. eauto.
  - intros (i & -> & <- & <-). now rewrite decide_True.
Qed.

Lemma observe_None k w :
  observe k w = None <-> iid <$> mounted w <> Some k.
Proof.
  unfold observe. destruct (mounted w) as [i|]; simpl.
  - destruct (decide (iid i = k)); split; congruence.
  - split; congruence.
Qed.

Lemma mounted_deliver j cs w :
  mounted (deliver j cs w) =
  (fun i => if decide (iid i = j)
            then {| iid := iid i; state := commit (state i) cs;
                    clickCount := clickCount i |}
            else i) <$> mounted w.
Proof.
  unfold deliver, mounted.
  destruct (content w) as [| i] eqn:Hc; simpl; rewrite ?Hc; [reflexivity|].
  destruct (decide (iid i = j)); simpl; rewrite ?Hc; reflexivity.
Qed.

Lemma owner_deliver j cs w : iid <$> mounted (deliver j cs w) = iid <$> mounted w.
Proof.
  rewrite mounted_deliver. destruct (mounted w) as [i|]; [|reflexivity].
  simpl. destruct (decide (iid i = j)); reflexivity.
Qed.

Lemma observe_deliver_ne j k cs w :
  j <> k -> observe k (deliver j cs w) = observe k w.
Proof.
  intros Hne. unfold observe. rewrite mounted_deliver.
  destruct (mounted w) as [i|]; [|reflexivity]. simpl.
  destruct (decide (iid i = j)) as [Hj|]; [|reflexivity]. simpl.
  rewrite !decide_False by congruence. reflexivity.
Qed.

Lemma observe_click k n w :
  observe k (set_content (click n (content w)) w) = observe k w.
Proof.
  unfold observe, mounted, set_content, click; simpl.
  destruct (content w) as [c0 c1 c2 | i].
  - destruct n as [|[|[|n]]]; reflexivity.
  - destruct n; [destruct (tag (state i)) eqn:Ht|]; simpl; rewrite ?Ht; reflexivity.
Qed.

Lemma fresh_deliver j cs w : fresh (deliver j cs w) = fresh w.
Proof.
  unfold deliver. destruct (content w) as [| i]; [reflexivity|].
  destruct (decide (iid i = j)); reflexivity.
Qed.

Lemma fresh_step w e : fresh w <= fresh (step w e).
Proof.
  destruct e as [p | n | j r | j]; simpl.
  - destruct (Page_eqb p (currentPage w)); [lia|]. destruct p; simpl; lia.
  - lia.
  - destruct (tasks w !! j) as [[| response] |]; try lia.
    destruct (fetchData_after_fetch r) as [cs ph]. rewrite fresh_deliver. simpl. lia.
  - destruct (tasks w !! j) as [[| response] |]; try lia.
    destruct (fetchData_after_json response) as [cs ph].
    rewrite fresh_deliver. simpl. lia.
Qed.

(** An instance that is not mounted is never mounted again. *)
Lemma step_dead k w e :
  k < fresh w -> observe k w = None -> observe k (step w e) = None.
Proof.
  intros Hk Hd. destruct e as [p | n | j r | j]; simpl.
  - destruct (Page_eqb p (currentPage w)); [exact Hd|].
    destruct p; simpl; [reflexivity|].
    unfold observe, mounted; simpl. rewrite decide_False by lia. reflexivity.
  - now rewrite observe_click.
  - destruct (tasks w !! j) as [[| response] |]; try exact Hd.
    destruct (fetchData_after_fetch r) as [cs ph].
    apply observe_None. rewrite owner_deliver. now apply observe_None.
  - destruct (tasks w !! j) as [[| response] |]; try exact Hd.
    destruct (fetchData_after_json response) as [cs ph].
    apply observe_None. rewrite owner_deliver. now apply observe_None.
Qed.

Lemma run_dead k w es :
  k < fresh w -> observe k w = None -> observe k (run w es) = None.
Proof.
  revert w. induction es as [|e es IH]; intros w Hk Hd; [exact Hd|].
  apply IH; [pose proof (fresh_step w e); lia | now apply step_dead].
Qed.

(** For a mounted fetcher, Loading is exactly "its [fetchData] has not
    finished". *)
Lemma Loading_iff_pending k w T :
  Inv w -> observe k w = Some T ->
  (T = Loading <-> is_Some (tasks w !! k)).
Proof.
  intros HI Ho. apply observe_Some in Ho as (i & Hc & <- & <-).
  destruct (inv_inst w HI i) as [_ Hok]; [unfold mounted; now rewrite Hc|].
  unfold instance_ok in Hok. destruct (tasks w !! iid i) as [ph|].
  - rewrite Hok. split; eauto.
  - destruct Hok as [Hl _]. unfold tag. rewrite Hl. split.
    + destruct (error (state i)); discriminate.
    + intros [x Hx]. discriminate.
Qed.

(** A resolved fetcher keeps its branch until it is unmounted. *)
Lemma step_resolved k w e T :
  Inv w -> observe k w = Some T -> T <> Loading ->
  observe k (step w e) = Some T \/ observe k (step w e) = None.
Proof.
  intros HI Ho HT.
  assert (Hnone : tasks w !! k = None).
  { destruct (tasks w !! k) eqn:Hk; [|reflexivity].
    exfalso. apply HT. apply (Loading_iff_pending k w T HI Ho). rewrite Hk. eauto. }
  destruct e as [p | n | j r | j]; simpl.
  - destruct (Page_eqb p (currentPage w)) eqn:Hp; [now left|].
    destruct p; simpl; [now right|].
    exfalso. apply observe_Some in Ho as (i & Hc & _).
    pose proof (inv_page w HI) as Hpg. unfold page_ok in Hpg.
    rewrite Hc in Hpg. destruct (currentPage w); [destruct Hpg | discriminate].
  - left. now rewrite observe_click.
  - destruct (decide (j = k)) as [-> | Hne]; [rewrite Hnone; now left|].
    destruct (tasks w !! j) as [[| response] |]; try now left.
    destruct (fetchData_after_fetch r) as [cs ph].
    left. rewrite observe_deliver_ne by assumption. exact Ho.
  - destruct (decide (j = k)) as [-> | Hne]; [rewrite Hnone; now left|].
    destruct (tasks w !! j) as [[| response] |]; try now left.
    destruct (fetchData_after_json response) as [cs ph].
    left. rewrite observe_deliver_ne by assumption. exact Ho.
Qed.

Lemma history_resolved k T es : forall w,
  Inv w -> observe k w = Some T -> T <> Loading ->
  exists m, history k w es = repeat T (S m).
Proof.
  induction es as [|e es IH]; intros w HI Ho HT; simpl; rewrite Ho.
  - exists 0. reflexivity.
  - destruct (step_resolved k w e T HI Ho HT) as [Hs | Hs].
    + destruct (IH (step w e) (Inv_step w e HI) Hs HT) as [m ->].
      exists (S m). reflexivity.
    + exists 0. destruct es; simpl; rewrite Hs; reflexivity.
Qed.

Lemma history_Loading k es : forall w,
  Inv w -> observe k w = Some Loading ->
  exists n m T,
    history k w es = repeat Loading (S n) ++ repeat T m /\
    (T = Failed \/ T = Loaded).
Proof.
  induction es as [|e es IH]; intros w HI Ho; simpl; rewrite Ho.
  - exists 0, 0, Failed. split; [reflexivity | now left].
  - destruct (observe k (step w e)) as [T|] eqn:Hs.
    + assert (HT : T = Loading \/ T <> Loading)
        by (destruct T; [now left | now right | now right]).
      destruct HT as [-> | HT].
      * destruct (IH (step w e) (Inv_step w e HI) Hs) as (n & m & T & -> & HT).
        exists (S n), m, T. split; [reflexivity | exact HT].
      * destruct (history_resolved k T es (step w e) (Inv_step w e HI) Hs HT)
          as [m ->].
        exists 0, (S m), T. split; [reflexivity|].
        destruct T; [congruence | now left | now right].
    + exists 0, 0, Failed. split; [|now left].
      destruct es; simpl; rewrite Hs; reflexivity.
Qed.

Lemma history_last k es : forall w T,
  k < fresh w -> observe k (run w es) = Some T ->
  last (history k w es) = Some T.
Proof.
  induction es as [|e es IH]; intros w T Hk Ho.
  - simpl in *. rewrite Ho. reflexivity.
  - change (run w (e :: es)) with (run (step w e) es) in Ho.
    assert (Hk' : k < fresh (step w e)) by (pose proof (fresh_step w e); lia).
    simpl. destruct (observe k w) as [t|] eqn:Hw.
    + pose proof (IH (step w e) T Hk' Ho) as Hl.
      destruct (history k (step w e) es) as [|t' l]; [discriminate|].
      exact Hl.
    + rewrite (run_dead k (step w e) es Hk' (step_dead k w e Hk Hw)) in Ho.
      discriminate.
Qed.

Lemma tasks_deliver j cs w : tasks (deliver j cs w) = tasks w.
Proof.
  unfold deliver. destruct (content w) as [| i]; [reflexivity|].
  destruct (decide (iid i = j)); reflexivity.
Qed.

(** Once the request and the body have settled, the [fetchData] of [k]
    has finished, whatever the outcome. *)
Lemma settled_finished k r w :
  tasks (foldl step w [FetchSettled k r; JsonSettled k]) !! k = None.
Proof.
  change (tasks (step (step w (FetchSettled k r)) (JsonSettled k)) !! k = None).
  assert (Hjson : forall w', tasks (step w' (JsonSettled k)) !! k = None \/
                             (tasks w' !! k = Some AwaitFetch /\
                              step w' (JsonSettled k) = w')).
  { intros w'. unfold step. destruct (tasks w' !! k) as [[| response] |] eqn:Hk.
    - right. auto.
    - left. destruct (fetchData_after_json_cases response)
        as [(v & _ & ->) | (e & _ & ->)];
        rewrite tasks_deliver; simpl; apply lookup_delete_eq.
    - left. exact Hk. }
  destruct (Hjson (step w (FetchSettled k r))) as [H | [H _]]; [exact H|].
  exfalso. revert H. unfold step.
  destruct (tasks w !! k) as [[| response] |] eqn:Hk; try congruence.
  destruct (fetchData_after_fetch_cases r)
    as [(response & _ & _ & ->) | (e & ->)];
    rewrite tasks_deliver; simpl.
  - rewrite lookup_insert_eq. discriminate.
  - rewrite lookup_delete_eq. discriminate.
Qed.

End History.

(** C2. Every activation (selecting [data] from [home] mounts instance
    [k]) shows Loading first and changes branch once, to Failed or to
    Loaded, which it then keeps: over any sequence of events its branches
    are Loading one or more times, then one resolved branch, never Loading
    again.  The change happens when its [fetchData] finishes: while the
    instance is mounted it is in Loading exactly as long as [fetchData] is
    suspended, and [fetchData] has finished once the request and the body
    have settled. *)
Theorem one_transition_per_activation (w0 : App.World) (es : list App.Event) :
  App.reachable w0 ->
  App.currentPage w0 = App.home ->
  let k := App.fresh w0 in
  let w1 := App.step w0 (App.Select App.data) in
  exists n m T,
    App.history k w1 es =
      repeat DataFetcher.Loading (S n) ++ repeat T m /\
    (T = DataFetcher.Failed \/ T = DataFetcher.Loaded) /\
    (forall T', App.observe k (App.run w1 es) = Some T' ->
       last (App.history k w1 es) = Some T' /\
       (T' = DataFetcher.Loading <-> is_Some (App.tasks (App.run w1 es) !! k))) /\
    (forall r,
       App.tasks (App.run w1 (es ++ [App.FetchSettled k r; App.JsonSettled k])) !! k
       = None).
Proof.
  intros Hr Hh k w1. apply reachable_Inv in Hr.
  assert (HI : Inv w1) by now apply Inv_step.
  assert (Hw1 : w1 = App.step w0 (App.Select App.data)) by reflexivity.
  rewrite (step_Select_data w0 Hh) in Hw1.
  assert (Ho : App.observe k w1 = Some DataFetcher.Loading).
  { rewrite Hw1. unfold App.observe, App.mounted; simpl.
    now rewrite decide_True. }
  assert (Hk : k < App.fresh w1) by (rewrite Hw1; simpl; unfold k; lia).
  destruct (history_Loading k es w1 HI Ho) as (n & m & T & Hhist & HT).
  exists n, m, T. split; [exact Hhist|]. split; [exact HT|]. split.
  - intros T' HT'. split.
    + now apply history_last.
    + apply Loading_iff_pending; [now apply Inv_run | exact HT'].
  - intros r. unfold App.run. rewrite foldl_app. apply settled_finished.
Qed.

Lemma one_transition_per_activation_witness :
  let response := {| status := 404; json := inl {| message := "" |} |} in
  let es := [App.FetchSettled 0 (inr response); App.ClickCard 0] in
  let w1 := App.step App.initial (App.Select App.data) in
  App.reachable App.initial /\
  App.currentPage App.initial = App.home /\
  exists n m T,
    App.history 0 w1 es =
      repeat DataFetcher.Loading (S n) ++ repeat T m /\
    (T = DataFetcher.Failed \/ T = DataFetcher.Loaded) /\
    (forall T', App.observe 0 (App.run w1 es) = Some T' ->
       last (App.history 0 w1 es) = Some T' /\
       (T' = DataFetcher.Loading <-> is_Some (App.tasks (App.run w1 es) !! 0))) /\
    (forall r,
       App.tasks (App.run w1 (es ++ [App.FetchSettled 0 r; App.JsonSettled 0])) !! 0
       = None).
Proof.
  split; [exists []; reflexivity|]. split; [reflexivity|].
  apply (one_transition_per_activation App.initial
           [App.FetchSettled 0 (inr {| status := 404; json := inl {| message := "" |} |});
            App.ClickCard 0]
           (ex_intro _ [] eq_refl) eq_refl).
Defined.

Example history_404 :
  App.history 0 (App.step App.initial (App.Select App.data))
    [App.ClickCard 0;
     App.FetchSettled 0 (inr {| status := 404; json := inl {| message := "" |} |});
     App.Select App.data; App.ClickCard 0]
  = [DataFetcher.Loading; DataFetcher.Loading; DataFetcher.Failed;
     DataFetcher.Failed; DataFetcher.Failed].
Proof. vm_compute. reflexivity. Qed.

(** ** A fetch that settles after its view is gone *)

(** One resumption of the [fetchData] of an unmounted instance [k], in
    full: it makes the calls it would make for a mounted one (on failure
    [setError] then [setLoading(false)], on success [setData] then
    [setLoading(false)]), and they reach no mounted component: the current
    page and the mounted content, a newer fetcher included, stay as they
    are. *)
Theorem late_result_reaches_no_view (w : App.World) (k : nat) :
  App.observe k w = None ->
  (forall r, App.tasks w !! k = Some DataFetcher.AwaitFetch ->
     let w' := App.step w (App.FetchSettled k r) in
     App.currentPage w' = App.currentPage w /\
     App.content w' = App.content w /\
     App.log w' =
       App.log w ++
       [{| App.target := k; App.live := false;
           App.calls :=
             match r with
             | inl e =>
                 [DataFetcher.setError (Some e);
                  DataFetcher.console_error "Failed to fetch data:" e;
                  DataFetcher.setLoading false]
             | inr response =>
                 if ok response then []
                 else
                   let e := {| message := "HTTP error! status: " +:+
                                          decimal (status response) |} in
                   [DataFetcher.setError (Some e);
                    DataFetcher.console_error "Failed to fetch data:" e;
                    DataFetcher.setLoading false]
             end |}]) /\
  (forall response, App.tasks w !! k = Some (DataFetcher.AwaitJson response) ->
     let w' := App.step w (App.JsonSettled k) in
     App.currentPage w' = App.currentPage w /\
     App.content w' = App.content w /\
     App.log w' =
       App.log w ++
       [{| App.target := k; App.live := false;
           App.calls :=
             match json response with
             | inl e =>
                 [DataFetcher.setError (Some e);
                  DataFetcher.console_error "Failed to fetch data:" e;
                  DataFetcher.setLoading false]
             | inr v => [DataFetcher.setData v; DataFetcher.setLoading false]
             end |}]).
Proof.
  intros Hd.
  assert (Hdel : forall cs ts,
            App.deliver k cs (App.set_tasks ts w) =
            {| App.currentPage := App.currentPage w; App.content := App.content w;
               App.fresh := App.fresh w; App.tasks := ts;
               App.requests := DataFetcher.issued cs + App.requests w;
               App.log := App.log w ++
                 [{| App.target := k; App.calls := cs; App.live := false |}] |}).
  { intros cs ts. unfold App.deliver, App.set_tasks; simpl.
    unfold App.observe, App.mounted in Hd.
    destruct (App.content w) as [| i]; [reflexivity|].
    destruct (decide (App.iid i = k)); [discriminate | reflexivity]. }
  split.
  - intros r Hk w'. subst w'. unfold App.step. rewrite Hk.
    unfold DataFetcher.fetchData_after_fetch, DataFetcher.try_after_fetch.
    destruct r as [e | response]; simpl.
    + rewrite Hdel. simpl. auto.
    + destruct (ok response); simpl; rewrite Hdel; simpl; auto.
  - intros response Hk w'. subst w'. unfold App.step. rewrite Hk.
    unfold DataFetcher.fetchData_after_json, DataFetcher.try_after_json.
    destruct (json response) as [e | v]; simpl; rewrite Hdel; simpl; auto.
Qed.

Lemma late_result_reaches_no_view_witness :
  let w := App.run App.initial
             [App.Select App.data; App.Select App.home;
              App.FetchSettled 0 (inr response200)] in
  App.observe 0 w = None /\
  App.tasks w !! 0 = Some (DataFetcher.AwaitJson response200) /\
  App.content (App.step w (App.JsonSettled 0)) = App.content w /\
  App.log (App.step w (App.JsonSettled 0)) =
    App.log w ++
    [{| App.target := 0; App.live := false;
        App.calls := [DataFetcher.setData (Some post1);
                      DataFetcher.setLoading false] |}].
Proof.
  split; [reflexivity|]. split; [reflexivity|].
  destruct (proj2 (late_result_reaches_no_view
                     (App.run App.initial
                        [App.Select App.data; App.Select App.home;
                         App.FetchSettled 0 (inr response200)])
                     0 eq_refl) response200 eq_refl) as (_ & Hc & Hl).
  split; [exact Hc | exact Hl].
Defined.

Lemma App_depends_on_page_and_content (w1 w2 : App.World) :
  App.currentPage w1 = App.currentPage w2 ->
  App.content w1 = App.content w2 ->
  App.App w1 = App.App w2.
Proof. unfold App.App, App.page. intros -> ->. reflexivity. Qed.

Lemma settle_unmounted (w : App.World) (k : nat) (e : App.Event) :
  App.observe k w = None ->
  (exists r, e = App.FetchSettled k r) \/ e = App.JsonSettled k ->
  App.content (App.step w e) = App.content w /\
  App.currentPage (App.step w e) = App.currentPage w.
Proof.
  intros Hd He.
  assert (Hdel : forall cs ts,
            App.content (App.deliver k cs (App.set_tasks ts w)) = App.content w /\
            App.currentPage (App.deliver k cs (App.set_tasks ts w)) =
            App.currentPage w).
  { intros cs ts. unfold App.deliver, App.set_tasks; simpl.
    unfold App.observe, App.mounted in Hd.
    destruct (App.content w) as [| i]; [auto|].
    destruct (decide (App.iid i = k)); [discriminate | auto]. }
  destruct He as [[r ->] | ->]; unfold App.step.
  - destruct (App.tasks w !! k) as [[| response] |]; auto.
    destruct (DataFetcher.fetchData_after_fetch r) as [cs ph]. apply Hdel.
  - destruct (App.tasks w !! k) as [[| response] |]; auto.
    destruct (DataFetcher.fetchData_after_json response) as [cs ph]. apply Hdel.
Qed.

(** C1. If the fetcher [k] is unmounted while its [fetchData] is still
    suspended, the result is discarded: whenever the request or the body
    of [k] settles, at once or after any further events, nothing that is
    mounted is updated (the mounted content with all its hooks, the current
    page and the whole rendered application stay as they are), and the
    instance [k] is never mounted again, so its [data], [loading] and
    [error] receive no update after the unmount. *)
Theorem late_result_discarded (w : App.World) (k : nat) (es : list App.Event) :
  App.reachable w ->
  App.observe k w = None ->
  is_Some (App.tasks w !! k) ->
  let w' := App.run w es in
  App.observe k w' = None /\
  (forall e, (exists r, e = App.FetchSettled k r) \/ e = App.JsonSettled k ->
     App.content (App.step w' e) = App.content w' /\
     App.currentPage (App.step w' e) = App.currentPage w' /\
     App.App (App.step w' e) = App.App w' /\
     App.observe k (App.step w' e) = None).
Proof.
  intros Hr Hd Hk w'. apply reachable_Inv in Hr.
  assert (Hlt : k < App.fresh w) by now apply (inv_fresh w Hr).
  assert (Hd' : App.observe k w' = None) by now apply run_dead.
  split; [exact Hd'|].
  intros e He. destruct (settle_unmounted w' k e Hd' He) as [Hc Hp].
  split; [exact Hc|]. split; [exact Hp|].
  split; [now apply App_depends_on_page_and_content|].
  unfold App.observe, App.mounted in *. now rewrite Hc.
Qed.

Lemma late_result_discarded_witness :
  let w := App.run App.initial [App.Select App.data; App.Select App.home] in
  let es := [App.ClickCard 1; App.FetchSettled 0 (inr response200)] in
  App.reachable w /\
  App.observe 0 w = None /\
  is_Some (App.tasks w !! 0) /\
  App.observe 0 (App.run w es) = None /\
  App.App (App.step (App.run w es) (App.JsonSettled 0)) = App.App (App.run w es).
Proof.
  assert (Hr : App.reachable
                 (App.run App.initial [App.Select App.data; App.Select App.home]))
    by (eexists; reflexivity).
  assert (Hk : is_Some (App.tasks (App.run App.initial
                 [App.Select App.data; App.Select App.home]) !! 0))
    by (eexists; reflexivity).
  split; [exact Hr|]. split; [reflexivity|]. split; [exact Hk|].
  destruct (late_result_discarded
              (App.run App.initial [App.Select App.data; App.Select App.home]) 0
              [App.ClickCard 1; App.FetchSettled 0 (inr response200)]
              Hr eq_refl Hk) as [Hd Hs].
  split; [exact Hd|].
  exact (proj1 (proj2 (proj2 (Hs (App.JsonSettled 0) (or_intror eq_refl))))).
Defined.

(** ** Navigation *)

(** C7, as stated, fails on its last part: with [data] selected and the
    fetch resolved, selecting [data] again starts nothing: no instance is
    in Loading and no second request has been issued. *)
Lemma reselect_data_does_not_restart :
  let w := App.run App.initial
             [App.Select App.data; App.FetchSettled 0 (inr response200);
              App.JsonSettled 0; App.Select App.data] in
  ~ (exists k, App.observe k w = Some DataFetcher.Loading) /\
  App.observe 0 w = Some DataFetcher.Loaded /\
  App.requests w = 1.
Proof.
  split; [|split; reflexivity].
  intros [k Hk]. vm_compute in Hk.
  destruct k; discriminate Hk.
Qed.

(** C7, amended.  The page is [home] or [data].  Selecting [data] from
    [home] unmounts the three cards and mounts one fetcher, in Loading,
    whose effect issues exactly one request.  Selecting [data] while [data]
    is selected changes nothing.  Selecting [home] and then [data] again
    mounts a new fetcher, in Loading, with a request of its own. *)
Theorem navigation (w : App.World) :
  (forall p : App.Page, p = App.home \/ p = App.data) /\
  (App.currentPage w = App.home ->
     let w' := App.step w (App.Select App.data) in
     App.currentPage w' = App.data /\
     App.content w' = App.Data {| App.iid := App.fresh w;
                                  App.state := DataFetcher.initial;
                                  App.clickCount := Card.initial |} /\
     App.page w' = [Elem "div" "flex justify-center" [DataFetcher.loadingView]] /\
     cards w' = [] /\
     App.observe (App.fresh w) w' = Some DataFetcher.Loading /\
     App.requests w' = S (App.requests w) /\
     App.tasks w' = <[App.fresh w := DataFetcher.AwaitFetch]> (App.tasks w)) /\
  (App.currentPage w = App.data -> App.step w (App.Select App.data) = w) /\
  (App.currentPage w = App.data ->
     let w' := App.run w [App.Select App.home; App.Select App.data] in
     App.currentPage w' = App.data /\
     App.content w' = App.Data {| App.iid := App.fresh w;
                                  App.state := DataFetcher.initial;
                                  App.clickCount := Card.initial |} /\
     App.observe (App.fresh w) w' = Some DataFetcher.Loading /\
     App.requests w' = S (App.requests w) /\
     App.tasks w' = <[App.fresh w := DataFetcher.AwaitFetch]> (App.tasks w)).
Proof.
  split; [intros []; auto|]. split; [|split].
  - intros Hh w'. subst w'. rewrite (step_Select_data w Hh).
    unfold App.page, App.observe, App.mounted, cards; simpl.
    rewrite decide_True by reflexivity. repeat split; reflexivity.
  - intros Hd. unfold App.step. rewrite Hd. reflexivity.
  - intros Hd w'.
    assert (Hw' : w' = App.step (App.step w (App.Select App.home))
                                (App.Select App.data)) by reflexivity.
    assert (Hhome : App.step w (App.Select App.home) = App.mount App.home w).
    { unfold App.step. rewrite Hd. reflexivity. }
    rewrite Hhome in Hw'.
    rewrite (step_Select_data (App.mount App.home w) eq_refl) in Hw'.
    rewrite Hw'. unfold App.observe, App.mounted; simpl.
    rewrite decide_True by reflexivity. repeat split; reflexivity.
Qed.

Lemma navigation_witness :
  let w := App.run App.initial
             [App.Select App.data; App.FetchSettled 0 (inr response200);
              App.JsonSettled 0] in
  App.currentPage App.initial = App.home /\
  App.currentPage w = App.data /\
  App.requests (App.step App.initial (App.Select App.data)) = 1 /\
  App.step w (App.Select App.data) = w /\
  App.observe 1 (App.run w [App.Select App.home; App.Select App.data])
    = Some DataFetcher.Loading.
Proof.
  split; [reflexivity|]. split; [reflexivity|].
  destruct (navigation App.initial) as (_ & H1 & _).
  destruct (navigation (App.run App.initial
             [App.Select App.data; App.FetchSettled 0 (inr response200);
              App.JsonSettled 0])) as (_ & _ & H2 & H3).
  split; [exact (proj1 (proj2 (proj2 (proj2 (proj2 (proj2 (H1 eq_refl))))))) |].
  split; [exact (H2 eq_refl) |].
  exact (proj1 (proj2 (proj2 (H3 eq_refl)))).
Defined.

(** ** Click counters *)

Section Clicks.

Import App.

Lemma shown_counter_Card (props : Card.CardProps) (n : number) :
  Card.shown_counter <$> Card.shown (Card.CardComponent props n) =
  Some (counter_text n).
Proof. now rewrite shown_CardComponent. Qed.

Lemma displayed_counter_counts w i :
  displayed_counter w i = counter_text <$> counts w !! i.
Proof.
  unfold displayed_counter, cards, counts.
  destruct (content w) as [c0 c1 c2 | inst].
  - unfold homeCards.
    destruct i as [|[|[|i]]]; try exact (shown_counter_Card _ _); reflexivity.
  - destruct (DataFetcher.tag (state inst)) eqn:Ht; try (destruct i; reflexivity).
    rewrite (Loaded_renders_card _ _ Ht).
    destruct i as [|i]; [exact (shown_counter_Card _ _) | reflexivity].
Qed.

(** A click on card [j] runs the handler of card [j] and of no other. *)
Lemma counts_click w j :
  counts (step w (ClickCard j)) = alter Card.handleCardClick j (counts w).
Proof.
  unfold step, set_content, counts, click; simpl.
  destruct (content w) as [c0 c1 c2 | inst].
  - destruct j as [|[|[|j]]]; reflexivity.
  - destruct j as [|j]; destruct (DataFetcher.tag (state inst)) eqn:Ht;
      simpl; rewrite ?Ht; reflexivity.
Qed.

Lemma add1_min (x : N) : add1 (N.min x MAX_EXACT) = N.min (x + 1) MAX_EXACT.
Proof.
  unfold add1. destruct (N.ltb_spec (N.min x MAX_EXACT) MAX_EXACT); lia.
Qed.

Lemma iter_add1 (n : nat) :
  Nat.iter n Card.handleCardClick Card.initial = N.min (N.of_nat n) MAX_EXACT.
Proof.
  induction n as [|n IH]; [reflexivity|].
  simpl Nat.iter. rewrite IH. unfold Card.handleCardClick.
  rewrite add1_min. f_equal. lia.
Qed.

Lemma run_snoc w es e : run w (es ++ [e]) = step (run w es) e.
Proof. unfold run. now rewrite foldl_app. Qed.

Lemma counts_clicks (cs : list nat) (i : nat) : forall w,
  counts (run w (ClickCard <$> cs)) !! i =
  Nat.iter (count_occ Nat.eq_dec cs i) Card.handleCardClick <$> counts w !! i.
Proof.
  induction cs as [|j cs IH] using rev_ind; intros w.
  - simpl. now destruct (counts w !! i).
  - rewrite fmap_app. change (ClickCard <$> [j]) with [ClickCard j].
    rewrite run_snoc, counts_click, count_occ_app. simpl.
    destruct (Nat.eq_dec j i) as [-> | Hne].
    + rewrite list_lookup_alter_eq, IH.
      destruct (counts w !! i); simpl; [|reflexivity].
      f_equal. rewrite Nat.add_1_r. reflexivity.
    + rewrite list_lookup_alter_ne by assumption. rewrite IH.
      now rewrite Nat.add_0_r.
Qed.

Lemma counts_iter_click0 (n : N) (w : World) :
  counts (N.iter n (fun w => step w (ClickCard 0)) w) !! 0 =
  N.iter n Card.handleCardClick <$> counts w !! 0.
Proof.
  induction n as [|n IH] using N.peano_ind.
  - change (counts w !! 0 = N.iter 0 Card.handleCardClick <$> counts w !! 0).
    now destruct (counts w !! 0).
  - rewrite N.iter_succ, counts_click, list_lookup_alter_eq, IH.
    destruct (counts w !! 0); simpl; [rewrite N.iter_succ|]; reflexivity.
Qed.

Lemma N_iter_add1 (n : N) :
  N.iter n Card.handleCardClick Card.initial = N.min n MAX_EXACT.
Proof.
  induction n as [|n IH] using N.peano_ind; [reflexivity|].
  rewrite N.iter_succ, IH. unfold Card.handleCardClick.
  rewrite add1_min. f_equal. lia.
Qed.

End Clicks.

Lemma displayed_after_clicks0 (n : N) :
  displayed_counter
    (N.iter n (fun w => App.step w (App.ClickCard 0)) App.initial) 0 =
  Some (counter_text (N.min n MAX_EXACT)).
Proof.
  rewrite displayed_counter_counts, counts_iter_click0.
  change (App.counts App.initial !! 0) with (Some Card.initial).
  change (Some (counter_text (N.iter n Card.handleCardClick Card.initial)) =
          Some (counter_text (N.min n MAX_EXACT))).
  now rewrite N_iter_add1.
Qed.

(** C8, as stated, fails for counts a JS number cannot hold: after
    [2^53 + 1 = 9007199254740993] clicks on the first card its counter
    shows [2^53]. *)
Lemma clicks_beyond_2_53 :
  displayed_counter
    (N.iter 9007199254740993 (fun w => App.step w (App.ClickCard 0)) App.initial) 0
  = Some "Clicked: 9007199254740992 times" /\
  displayed_counter
    (N.iter 9007199254740993 (fun w => App.step w (App.ClickCard 0)) App.initial) 0
  <> Some (counter_text 9007199254740993).
Proof.
  rewrite displayed_after_clicks0.
  split; [reflexivity | vm_compute; discriminate].
Qed.

(** C8, amended.  A card rendered with count zero that receives [n] of
    the clicks [cs], for [n] up to [2^53], holds and displays the count
    [n], whatever clicks the other cards receive; a click on another card
    leaves its count and its counter line as they are. *)
Theorem click_counter (w0 : App.World) (cs : list nat) (i : nat) :
  App.counts w0 !! i = Some Card.initial ->
  let n := count_occ Nat.eq_dec cs i in
  (N.of_nat n <= MAX_EXACT)%N ->
  let w := App.run w0 (App.ClickCard <$> cs) in
  App.counts w !! i = Some (N.of_nat n) /\
  displayed_counter w i = Some (counter_text (N.of_nat n)) /\
  (forall w' j, i <> j ->
     App.counts (App.step w' (App.ClickCard j)) !! i = App.counts w' !! i /\
     displayed_counter (App.step w' (App.ClickCard j)) i = displayed_counter w' i).
Proof.
  intros H0 n Hn w.
  assert (Hc : App.counts w !! i = Some (N.of_nat n)).
  { unfold w. rewrite counts_clicks, H0. simpl. fold n.
    rewrite iter_add1. f_equal. lia. }
  split; [exact Hc|]. split.
  - rewrite displayed_counter_counts, Hc. reflexivity.
  - intros w' j Hne.
    assert (Hs : App.counts (App.step w' (App.ClickCard j)) !! i = App.counts w' !! i).
    { rewrite counts_click. apply list_lookup_alter_ne. congruence. }
    split; [exact Hs|]. now rewrite !displayed_counter_counts, Hs.
Qed.

Lemma click_counter_witness :
  let w := App.run App.initial (App.ClickCard <$> [0; 1; 0]) in
  App.counts App.initial !! 0 = Some Card.initial /\
  (N.of_nat (count_occ Nat.eq_dec [0; 1; 0]%nat 0%nat) <= MAX_EXACT)%N /\
  App.counts w !! 0 = Some 2%N /\
  displayed_counter w 0 = Some "Clicked: 2 times".
Proof.
  split; [reflexivity|]. split; [vm_compute; discriminate|].
  destruct (click_counter App.initial [0; 1; 0] 0 eq_refl) as (Hc & Hd & _).
  - vm_compute. discriminate.
  - split; [exact Hc | exact Hd].
Defined.

(** * Further properties of the components *)

(** ** Other outcomes of the request *)

(** X1. When the request itself fails (the [fetch] promise is rejected
    with an error [e]), the freshly mounted fetcher ends in the Failed
    branch holding [e], shows [e.message] in the error view, and its
    [fetchData] has finished without asking for a body: a later settling
    of a body changes nothing, and no second request was issued. *)
Theorem transport_error_Failed (w0 : App.World) (e : Error) :
  App.currentPage w0 = App.home ->
  let k := App.fresh w0 in
  let w := App.run w0 [App.Select App.data; App.FetchSettled k (inl e)] in
  App.mounted w =
    Some {| App.iid := k;
            App.state := {| DataFetcher.data := None; DataFetcher.loading := false;
                            DataFetcher.error := Some e |};
            App.clickCount := Card.initial |} /\
  App.page w = [Elem "div" "flex justify-center" [DataFetcher.errorView (message e)]] /\
  App.tasks w !! k = None /\
  App.step w (App.JsonSettled k) = w /\
  App.requests w = S (App.requests w0).
Proof.
  intros Hh k w.
  assert (Hw : w = App.step (App.step w0 (App.Select App.data))
                            (App.FetchSettled (App.fresh w0) (inl e)))
    by reflexivity.
  rewrite (activation_fetch_fails w0 Hh (inl e) e eq_refl) in Hw.
  assert (Ht : App.tasks w !! k = None).
  { rewrite Hw. simpl. apply lookup_delete_eq. }
  split; [now rewrite Hw|]. split; [now rewrite Hw|]. split; [exact Ht|].
  split; [|now rewrite Hw].
  unfold App.step. now rewrite Ht.
Qed.

Lemma transport_error_Failed_witness :
  let e := {| message := "Failed to fetch" |} in
  let w := App.run App.initial [App.Select App.data; App.FetchSettled 0 (inl e)] in
  App.currentPage App.initial = App.home /\
  App.page w = [Elem "div" "flex justify-center"
                  [DataFetcher.errorView "Failed to fetch"]] /\
  App.requests w = 1.
Proof.
  split; [reflexivity|].
  destruct (transport_error_Failed App.initial {| message := "Failed to fetch" |}
              eq_refl) as (_ & Hp & _ & _ & Hr).
  split; [exact Hp | exact Hr].
Defined.

(** X2. For every response with an ok status whose body parses to a
    value [v] of the declared type [Post | null] (a post with a numeric id
    and a string title and body, or [null]), the freshly mounted fetcher
    ends in the Loaded branch holding [v] and renders one card; when [v] is
    a post with a non-empty title and a non-empty body the card shows
    exactly that title and that body, with the counter at zero.  Bodies of
    another shape are outside this statement. *)
Theorem ok_response_Loaded (w0 : App.World) (response : Response)
    (v : option Post.t) :
  App.currentPage w0 = App.home ->
  ok response = true ->
  json response = inr v ->
  let k := App.fresh w0 in
  let w := App.run w0 [App.Select App.data; App.FetchSettled k (inr response);
                       App.JsonSettled k] in
  let card := Card.CardComponent
                {| Card.title := or_else (Post.title <$> v) "No Title";
                   Card.content := or_else (Post.body <$> v) "No content found.";
                   Card.className := Some "max-w-xl mx-auto" |} Card.initial in
  App.mounted w =
    Some {| App.iid := k;
            App.state := {| DataFetcher.data := v; DataFetcher.loading := false;
                            DataFetcher.error := None |};
            App.clickCount := Card.initial |} /\
  App.observe k w = Some DataFetcher.Loaded /\
  App.page w = [Elem "div" "flex justify-center" [card]] /\
  App.tasks w !! k = None /\
  (forall p, v = Some p -> Post.title p <> "" -> Post.body p <> "" ->
     Card.shown card =
       Some {| Card.shown_title := Post.title p;
               Card.shown_content := Post.body p;
               Card.shown_counter := "Clicked: 0 times" |}).
Proof.
  intros Hh Hok Hj k w card.
  assert (Hshown : forall p, v = Some p -> Post.title p <> "" -> Post.body p <> "" ->
            Card.shown card =
              Some {| Card.shown_title := Post.title p;
                      Card.shown_content := Post.body p;
                      Card.shown_counter := "Clicked: 0 times" |}).
  { intros [i t b] -> Ht Hb. simpl in Ht, Hb. unfold card.
    rewrite shown_CardComponent. simpl.
    destruct t; [congruence|]. destruct b; [congruence|]. reflexivity. }
  pose proof (activation_json w0 Hh response Hok) as Hw. rewrite Hj in Hw.
  subst w k. rewrite Hw. unfold App.observe, App.mounted, App.page; simpl.
  rewrite decide_True by reflexivity.
  split; [reflexivity|]. split; [reflexivity|]. split; [reflexivity|].
  split; [apply lookup_delete_eq | exact Hshown].
Qed.

Lemma ok_response_Loaded_witness :
  let p := {| Post.id := 7; Post.title := "sunt aut"; Post.body := "quia et" |} in
  let response := {| status := 201; json := inr (Some p) |} in
  let w := App.run App.initial
             [App.Select App.data; App.FetchSettled 0 (inr response);
              App.JsonSettled 0] in
  App.currentPage App.initial = App.home /\
  ok response = true /\
  json response = inr (Some p) /\
  App.observe 0 w = Some DataFetcher.Loaded /\
  Card.shown
    (Card.CardComponent
       {| Card.title := "sunt aut"; Card.content := "quia et";
          Card.className := Some "max-w-xl mx-auto" |} Card.initial) =
  Some {| Card.shown_title := "sunt aut"; Card.shown_content := "quia et";
          Card.shown_counter := "Clicked: 0 times" |}.
Proof.
  do 3 (split; [reflexivity|]).
  destruct (ok_response_Loaded App.initial
              {| status := 201;
                 json := inr (Some {| Post.id := 7; Post.title := "sunt aut";
                                      Post.body := "quia et" |}) |}
              (Some {| Post.id := 7; Post.title := "sunt aut";
                       Post.body := "quia et" |})
              eq_refl eq_refl eq_refl) as (_ & Ho & _ & _ & Hs).
  split; [exact Ho|].
  apply (Hs {| Post.id := 7; Post.title := "sunt aut"; Post.body := "quia et" |}
            eq_refl); discriminate.
Defined.

(** ** Requests *)

Section Requests.

Import DataFetcher App.

Lemma requests_deliver j cs w :
  requests (deliver j cs w) = issued cs + requests w.
Proof.
  unfold deliver. destruct (content w) as [| i]; [reflexivity|].
  destruct (decide (iid i = j)); reflexivity.
Qed.

(** After its first [await], [fetchData] calls [fetch] no more. *)
Lemma issued_after_fetch r : issued (fst (fetchData_after_fetch r)) = 0.
Proof.
  destruct (fetchData_after_fetch_cases r)
    as [(response & _ & _ & ->) | (e & ->)]; reflexivity.
Qed.

Lemma issued_after_json response :
  issued (fst (fetchData_after_json response)) = 0.
Proof.
  destruct (fetchData_after_json_cases response)
    as [(v & _ & ->) | (e & _ & ->)]; reflexivity.
Qed.

Lemma requests_step w e :
  requests (step w e) = requests w + (if mounts_fetcher w e then 1 else 0).
Proof.
  destruct e as [p | n | j r | j]; simpl.
  - destruct p, (currentPage w); simpl; lia.
  - lia.
  - destruct (tasks w !! j) as [[| response] |]; try lia.
    pose proof (issued_after_fetch r) as H0.
    destruct (fetchData_after_fetch r) as [cs ph].
    rewrite requests_deliver. simpl in *. lia.
  - destruct (tasks w !! j) as [[| response] |]; try lia.
    pose proof (issued_after_json response) as H0.
    destruct (fetchData_after_json response) as [cs ph].
    rewrite requests_deliver. simpl in *. lia.
Qed.

Lemma fresh_step_eq w e :
  fresh (step w e) = fresh w + (if mounts_fetcher w e then 1 else 0).
Proof.
  destruct e as [p | n | j r | j]; simpl.
  - destruct p, (currentPage w); simpl; lia.
  - lia.
  - destruct (tasks w !! j) as [[| response] |]; try lia.
    destruct (fetchData_after_fetch r) as [cs ph].
    rewrite fresh_deliver. simpl. lia.
  - destruct (tasks w !! j) as [[| response] |]; try lia.
    destruct (fetchData_after_json response) as [cs ph].
    rewrite fresh_deliver. simpl. lia.
Qed.

Lemma requests_run es : forall w,
  requests (run w es) + fresh w = requests w + fresh (run w es).
Proof.
  induction es as [|e es IH]; intros w; [simpl; lia|].
  change (run w (e :: es)) with (run (step w e) es).
  pose proof (IH (step w e)) as H.
  rewrite requests_step, fresh_step_eq in H. lia.
Qed.

End Requests.

(** X3. One request per mount and no other.  [fetchData] calls [fetch]
    once, before its first [await], and never after it; so an event issues
    a request exactly when it mounts the fetcher (selecting [data] while
    [home] is shown), and then exactly one: a failed or successful
    settling, a click or any other selection issues none, and nothing is
    retried.  In every reachable state the requests issued so far are as
    many as the fetchers mounted so far. *)
Theorem one_request_per_mount (w : App.World) (e : App.Event) :
  DataFetcher.issued (fst DataFetcher.fetchData_start) = 1 /\
  (forall r, DataFetcher.issued (fst (DataFetcher.fetchData_after_fetch r)) = 0) /\
  (forall response,
     DataFetcher.issued (fst (DataFetcher.fetchData_after_json response)) = 0) /\
  App.requests (App.step w e) =
    App.requests w + (if mounts_fetcher w e then 1 else 0) /\
  (App.reachable w -> App.requests w = App.fresh w).
Proof.
  split; [reflexivity|]. split; [apply issued_after_fetch|].
  split; [apply issued_after_json|].
  split; [apply requests_step|].
  intros [es ->]. pose proof (requests_run es App.initial) as H.
  simpl in H. lia.
Qed.

Lemma one_request_per_mount_witness :
  let e404 := inr {| status := 404; json := inl {| message := "" |} |} in
  let w := App.run App.initial
             [App.Select App.data; App.FetchSettled 0 e404; App.Select App.home;
              App.Select App.data] in
  App.reachable w /\ App.requests w = 2 /\ App.fresh w = 2 /\
  App.requests (App.step w (App.FetchSettled 1 e404)) = 2.
Proof.
  split; [eexists; reflexivity|]. split; [reflexivity|].
  split; [reflexivity|].
  rewrite (proj1 (proj2 (proj2 (proj2 (one_request_per_mount
                    (App.run App.initial
                       [App.Select App.data;
                        App.FetchSettled 0
                          (inr {| status := 404; json := inl {| message := "" |} |});
                        App.Select App.home; App.Select App.data])
                    (App.FetchSettled 1
                       (inr {| status := 404; json := inl {| message := "" |} |}))))))).
  reflexivity.
Defined.

(** ** What is on screen *)

(** X4. The loading indicator is on screen exactly while the request or
    the body of the mounted fetcher is awaited: in every reachable state
    with a mounted fetcher, the page is the ["Loading..."] view if and only
    if its [fetchData] is still suspended. *)
Theorem loading_shown_while_pending (w : App.World) (i : App.Instance) :
  App.reachable w ->
  App.mounted w = Some i ->
  (App.page w = [Elem "div" "flex justify-center" [DataFetcher.loadingView]]
   <-> is_Some (App.tasks w !! App.iid i)).
Proof.
  intros Hr Hm. apply reachable_Inv in Hr.
  destruct (inv_inst w Hr i Hm) as [_ Hok].
  pose proof (inv_page w Hr) as Hp.
  unfold App.mounted in Hm. unfold page_ok in Hp. unfold App.page.
  destruct (App.content w) as [| i'] eqn:Hc; [discriminate|].
  injection Hm as ->.
  destruct (App.currentPage w); [destruct Hp|].
  unfold instance_ok in Hok. destruct (App.tasks w !! App.iid i) as [ph|].
  - rewrite Hok. split; [eauto | reflexivity].
  - destruct Hok as [Hl _]. split; [|intros [x Hx]; discriminate].
    unfold DataFetcher.DataFetcherComponent. rewrite Hl.
    destruct (DataFetcher.error (App.state i)); intros H; exfalso;
      unfold DataFetcher.errorView, DataFetcher.loadingView, Card.CardComponent in H;
      congruence.
Qed.

Lemma loading_shown_while_pending_witness :
  let w := App.run App.initial [App.Select App.data] in
  let i := {| App.iid := 0; App.state := DataFetcher.initial;
              App.clickCount := Card.initial |} in
  App.reachable w /\ App.mounted w = Some i /\
  (App.page w = [Elem "div" "flex justify-center" [DataFetcher.loadingView]]
   <-> is_Some (App.tasks w !! 0)).
Proof.
  split; [exists [App.Select App.data]; reflexivity|].
  split; [reflexivity|].
  exact (loading_shown_while_pending
           (App.run App.initial [App.Select App.data])
           {| App.iid := 0; App.state := DataFetcher.initial;
              App.clickCount := Card.initial |}
           (ex_intro _ [App.Select App.data] eq_refl) eq_refl).
Defined.

(** X5. In every reachable state [App] shows exactly one page content,
    the one of the current page (the [default] branch of its [switch] is
    never taken): the grid of the three cards for [home], the fetcher for
    [data]; and exactly one navigation button carries the classes of the
    selected page, the button of the current page. *)
Theorem page_matches_navigation (w : App.World) :
  App.reachable w ->
  selected_nav (App.App w) = [nav_label (App.currentPage w)] /\
  match App.currentPage w with
  | App.home =>
      exists c0 c1 c2,
        App.content w = App.Home c0 c1 c2 /\
        App.page w =
          [Elem "div" "grid grid-cols-1 md:grid-cols-2 lg:grid-cols-3 gap-6"
             (App.homeCards c0 c1 c2)]
  | App.data =>
      exists i,
        App.content w = App.Data i /\
        App.page w =
          [Elem "div" "flex justify-center"
             [DataFetcher.DataFetcherComponent (App.state i) (App.clickCount i)]]
  end.
Proof.
  intros Hr. apply reachable_Inv in Hr. pose proof (inv_page w Hr) as Hp.
  unfold page_ok in Hp. unfold App.page, App.App, selected_nav.
  destruct (App.currentPage w), (App.content w) as [c0 c1 c2 | i];
    try destruct Hp; (split; [vm_compute; reflexivity|]); eauto.
Qed.

Lemma page_matches_navigation_witness :
  let w := App.run App.initial [App.Select App.data] in
  App.reachable w /\ selected_nav (App.App w) = ["API Fetcher"].
Proof.
  split; [exists [App.Select App.data]; reflexivity|].
  exact (proj1 (page_matches_navigation
                  (App.run App.initial [App.Select App.data])
                  (ex_intro _ [App.Select App.data] eq_refl))).
Defined.

(** ** Selecting pages *)

(** X6. After a page is selected it is the current page, and selecting
    it a second time changes nothing at all, from any state. *)
Theorem Select_idempotent (w : App.World) (p : App.Page) :
  App.currentPage (App.step w (App.Select p)) = p /\
  App.step (App.step w (App.Select p)) (App.Select p) = App.step w (App.Select p).
Proof.
  assert (H : App.currentPage (App.step w (App.Select p)) = p).
  { unfold App.step. destruct p, (App.currentPage w) eqn:Hc; simpl; auto. }
  split; [exact H|].
  generalize dependent (App.step w (App.Select p)). intros w' H.
  unfold App.step. rewrite H. destruct p; reflexivity.
Qed.

(** X7. Click counts do not survive navigation: whatever the three
    counters hold, after going to [data] and back to [home] each card is
    rendered with count zero again; the request started by the visit is
    still awaited, since leaving the page cancels nothing. *)
Theorem counts_reset_by_navigation (w : App.World) :
  App.currentPage w = App.home ->
  let w' := App.run w [App.Select App.data; App.Select App.home] in
  App.counts w' = [0%N; 0%N; 0%N] /\
  (forall i, i < 3 -> displayed_counter w' i = Some "Clicked: 0 times") /\
  App.page w' =
    [Elem "div" "grid grid-cols-1 md:grid-cols-2 lg:grid-cols-3 gap-6"
       (App.homeCards 0 0 0)] /\
  App.tasks w' !! App.fresh w = Some DataFetcher.AwaitFetch.
Proof.
  intros Hh w'.
  assert (Hw' : w' = App.step (App.step w (App.Select App.data))
                              (App.Select App.home)) by reflexivity.
  rewrite (step_Select_data w Hh) in Hw'. simpl in Hw'.
  assert (Hc : App.counts w' = [0%N; 0%N; 0%N]) by now rewrite Hw'.
  split; [exact Hc|]. split; [|split].
  - intros i Hi. rewrite displayed_counter_counts, Hc.
    destruct i as [|[|[|i]]]; try reflexivity. lia.
  - now rewrite Hw'.
  - rewrite Hw'. simpl. apply lookup_insert_eq.
Qed.

Lemma counts_reset_by_navigation_witness :
  let w := App.run App.initial [App.ClickCard 0; App.ClickCard 0; App.ClickCard 2] in
  App.currentPage w = App.home /\
  App.counts w = [2%N; 0%N; 1%N] /\
  App.counts (App.run w [App.Select App.data; App.Select App.home])
    = [0%N; 0%N; 0%N].
Proof.
  split; [reflexivity|]. split; [reflexivity|].
  exact (proj1 (counts_reset_by_navigation
                  (App.run App.initial
                     [App.ClickCard 0; App.ClickCard 0; App.ClickCard 2])
                  eq_refl)).
Defined.

(** ** Fetches of other activations *)

Section Isolation.

Import DataFetcher App.

Lemma mounted_deliver_other j cs w i :
  mounted w = Some i -> j <> iid i -> mounted (deliver j cs w) = Some i.
Proof.
  intros Hm Hne. rewrite mounted_deliver, Hm. simpl.
  now rewrite decide_False by congruence.
Qed.

Lemma mounted_settles_other w i e :
  mounted w = Some i -> settles_other (iid i) e -> mounted (step w e) = Some i.
Proof.
  intros Hm He. destruct e as [p | n | j r | j]; simpl in *; try contradiction.
  - destruct (tasks w !! j) as [[| response] |]; try exact Hm.
    destruct (fetchData_after_fetch r) as [cs ph].
    now apply mounted_deliver_other.
  - destruct (tasks w !! j) as [[| response] |]; try exact Hm.
    destruct (fetchData_after_json response) as [cs ph].
    now apply mounted_deliver_other.
Qed.

(** A click on a card and the settling of a promise awaited by an
    unmounted instance can be taken in either order. *)
Lemma click_deliver_dead n j cs ts w :
  observe j w = None ->
  deliver j cs (set_tasks ts (set_content (click n (content w)) w)) =
  set_content (click n (content (deliver j cs (set_tasks ts w))))
              (deliver j cs (set_tasks ts w)).
Proof.
  intros Hd. unfold observe, mounted in Hd.
  unfold deliver, set_tasks, set_content, click; simpl.
  destruct (content w) as [c0 c1 c2 | i] eqn:Hc.
  - destruct n as [|[|[|n]]]; reflexivity.
  - destruct (decide (iid i = j)) as [|Hne]; [discriminate|].
    destruct n as [|n]; [destruct (tag (state i)) eqn:Ht|]; simpl;
      rewrite ?decide_False by assumption; simpl; rewrite ?Ht; reflexivity.
Qed.

End Isolation.

(** X8. The result of another activation's fetch never reaches the
    mounted fetcher: over any sequence of settlings that belong to other
    instances (earlier activations whose requests were still in flight),
    the mounted instance keeps its hooks unchanged. *)
Theorem stale_results_leave_mounted (w : App.World) (i : App.Instance)
    (es : list App.Event) :
  App.mounted w = Some i ->
  Forall (settles_other (App.iid i)) es ->
  App.mounted (App.run w es) = Some i.
Proof.
  intros Hm Hes. revert w Hm.
  induction Hes as [|e es He Hes IH]; intros w Hm; [exact Hm|].
  change (App.run w (e :: es)) with (App.run (App.step w e) es).
  apply IH. now apply mounted_settles_other.
Qed.

Lemma stale_results_leave_mounted_witness :
  let w := App.run App.initial
             [App.Select App.data; App.Select App.home; App.Select App.data] in
  let i := {| App.iid := 1; App.state := DataFetcher.initial;
              App.clickCount := Card.initial |} in
  let es := [App.FetchSettled 0 (inr response200); App.JsonSettled 0] in
  App.mounted w = Some i /\
  Forall (settles_other (App.iid i)) es /\
  App.mounted (App.run w es) = Some i.
Proof.
  assert (Hes : Forall (settles_other 1)
                  [App.FetchSettled 0 (inr response200); App.JsonSettled 0]).
  { repeat constructor; simpl; lia. }
  split; [reflexivity|]. split; [exact Hes|].
  exact (stale_results_leave_mounted
           (App.run App.initial
              [App.Select App.data; App.Select App.home; App.Select App.data])
           {| App.iid := 1; App.state := DataFetcher.initial;
              App.clickCount := Card.initial |}
           [App.FetchSettled 0 (inr response200); App.JsonSettled 0]
           eq_refl Hes).
Defined.

(** X9. Clicks on cards and late results do not interfere: when the
    instance [k] is not mounted, a click on a card followed by the settling
    of the request (or of the body) of [k] leaves the application in the
    same state as the settling followed by the click. *)
Theorem click_commutes_with_late_result (w : App.World) (n k : nat)
    (r : Error + Response) :
  App.observe k w = None ->
  App.step (App.step w (App.ClickCard n)) (App.FetchSettled k r) =
  App.step (App.step w (App.FetchSettled k r)) (App.ClickCard n) /\
  App.step (App.step w (App.ClickCard n)) (App.JsonSettled k) =
  App.step (App.step w (App.JsonSettled k)) (App.ClickCard n).
Proof.
  intros Hd. split.
  - change (App.step w (App.ClickCard n))
      with (App.set_content (App.click n (App.content w)) w).
    unfold App.step at 1 3. simpl App.tasks.
    destruct (App.tasks w !! k) as [[| response] |]; try reflexivity.
    destruct (DataFetcher.fetchData_after_fetch r) as [cs ph].
    now apply click_deliver_dead.
  - change (App.step w (App.ClickCard n))
      with (App.set_content (App.click n (App.content w)) w).
    unfold App.step at 1 3. simpl App.tasks.
    destruct (App.tasks w !! k) as [[| response] |]; try reflexivity.
    destruct (DataFetcher.fetchData_after_json response) as [cs ph].
    now apply click_deliver_dead.
Qed.

Lemma click_commutes_with_late_result_witness :
  let w := App.run App.initial [App.Select App.data; App.Select App.home] in
  App.observe 0 w = None /\
  App.step (App.step w (App.ClickCard 1)) (App.FetchSettled 0 (inr response200)) =
  App.step (App.step w (App.FetchSettled 0 (inr response200))) (App.ClickCard 1).
Proof.
  split; [reflexivity|].
  exact (proj1 (click_commutes_with_late_result
                  (App.run App.initial [App.Select App.data; App.Select App.home])
                  1 0 (inr response200) eq_refl)).
Defined.

(** ** What [fetchData] calls, over all runs *)

Section Resumptions.

Import DataFetcher App.

Lemma log_deliver j cs w :
  exists b, log (deliver j cs w) = log w ++ [{| target := j; calls := cs; live := b |}].
Proof.
  unfold deliver. destruct (content w) as [| i]; [eauto|].
  destruct (decide (iid i = j)); eauto.
Qed.

Lemma log_step w e :
  log (step w e) = log w \/
  exists d, log (step w e) = log w ++ [d] /\ resumption (calls d).
Proof.
  destruct e as [p | n | j r | j]; simpl.
  - destruct (Page_eqb p (currentPage w)); [now left|].
    destruct p; simpl; [now left|].
    right. eexists. split; [reflexivity|]. constructor.
  - now left.
  - destruct (tasks w !! j) as [[| response] |]; try now left.
    right. destruct (fetchData_after_fetch_cases r)
      as [(response & _ & _ & ->) | (e & ->)];
      match goal with
      | |- context [deliver ?j ?cs ?w'] => destruct (log_deliver j cs w') as [b ->]
      end; eexists; (split; [reflexivity|]); constructor.
  - destruct (tasks w !! j) as [[| response] |]; try now left.
    right. destruct (fetchData_after_json_cases response)
      as [(v & _ & ->) | (e & _ & ->)];
      match goal with
      | |- context [deliver ?j ?cs ?w'] => destruct (log_deliver j cs w') as [b ->]
      end; eexists; (split; [reflexivity|]); constructor.
Qed.

Lemma log_run es : forall w,
  Forall (fun d => resumption (calls d)) (log w) ->
  Forall (fun d => resumption (calls d)) (log (run w es)).
Proof.
  induction es as [|e es IH]; intros w Hw; [exact Hw|].
  change (run w (e :: es)) with (run (step w e) es). apply IH.
  destruct (log_step w e) as [-> | (d & -> & Hd)]; [exact Hw|].
  apply Forall_app. split; [exact Hw | now constructor].
Qed.

End Resumptions.

(** X10. In every reachable state, each recorded resumption of a
    [fetchData] made one of four sequences of calls: the two resets and
    the request at the start; nothing (an ok response, waiting for the body);
    [setData(v)] then [setLoading(false)]; or [setError(e)], the console
    report of the same [e], then [setLoading(false)].  So an error is never
    stored without being reported, data and an error are never set by the
    same run, and whenever a result is stored loading is switched off
    last. *)
Theorem resumptions_well_formed (w : App.World) :
  App.reachable w ->
  Forall (fun d => resumption (App.calls d)) (App.log w) /\
  (forall d e, In d (App.log w) ->
     In (DataFetcher.setError (Some e)) (App.calls d) ->
     In (DataFetcher.console_error "Failed to fetch data:" e) (App.calls d) /\
     last (App.calls d) = Some (DataFetcher.setLoading false) /\
     forall v, ~ In (DataFetcher.setData v) (App.calls d)) /\
  (forall d v, In d (App.log w) ->
     In (DataFetcher.setData v) (App.calls d) ->
     last (App.calls d) = Some (DataFetcher.setLoading false)).
Proof.
  intros [es ->].
  assert (H : Forall (fun d => resumption (App.calls d))
                (App.log (App.run App.initial es))).
  { apply log_run. constructor. }
  split; [exact H|].
  rewrite Forall_forall in H. split.
  - intros d e Hd He. specialize (H d). rewrite list_elem_of_In in H.
    specialize (H Hd). destruct H; simpl in He |- *;
      intuition (try discriminate; try congruence).
  - intros d v Hd Hv. specialize (H d). rewrite list_elem_of_In in H.
    specialize (H Hd). destruct H; simpl in Hv |- *;
      intuition (try discriminate; try congruence).
Qed.

Lemma resumptions_well_formed_witness :
  let w := App.run App.initial
             [App.Select App.data;
              App.FetchSettled 0 (inr {| status := 500; json := inr None |})] in
  App.reachable w /\
  Forall (fun d => resumption (App.calls d)) (App.log w).
Proof.
  split; [eexists; reflexivity|].
  exact (proj1 (resumptions_well_formed
                  (App.run App.initial
                     [App.Select App.data;
                      App.FetchSettled 0 (inr {| status := 500; json := inr None |})])
                  (ex_intro _ [App.Select App.data;
                               App.FetchSettled 0
                                 (inr {| status := 500; json := inr None |})]
                            eq_refl))).
Defined.

(** ** Numbers in text *)

Lemma decimal_inj (n m : N) : decimal n = decimal m -> n = m.
Proof.
  unfold decimal. intros H. apply DecimalN.Unsigned.to_uint_inj.
  assert (Hs : Some (N.to_uint n) = Some (N.to_uint m)).
  { rewrite <- !NilEmpty.usu. now rewrite H. }
  now injection Hs.
Qed.

Lemma digits_string_of_uint (d : Decimal.uint) :
  digits (NilEmpty.string_of_uint d) = true.
Proof. induction d; simpl; auto. Qed.

Lemma digits_decimal (n : N) : digits (decimal n) = true.
Proof. apply digits_string_of_uint. Qed.

(** A run of digits followed by a space is read off unambiguously. *)
Lemma digits_cancel (a : string) : forall b x y,
  digits a = true -> digits b = true ->
  a +:+ String (Ascii.Ascii false false false false false true false false) x = b +:+ String (Ascii.Ascii false false false false false true false false) y -> a = b /\ x = y.
Proof.
  induction a as [|c a IH]; intros [|c' b] x y Ha Hb H.
  - injection H as ->. auto.
  - rewrite append_cons in H. injection H as <- _. discriminate Hb.
  - rewrite append_cons in H. injection H as -> _. discriminate Ha.
  - rewrite !append_cons in H. injection H as -> H.
    simpl in Ha, Hb. apply andb_prop in Ha as [_ Ha]. apply andb_prop in Hb as [_ Hb].
    destruct (IH b x y Ha Hb H) as [-> ->]. auto.
Qed.

Lemma counter_text_inj (n m : N) : counter_text n = counter_text m -> n = m.
Proof.
  unfold counter_text. intros H.
  apply (inj (String.append "Clicked: ")) in H.
  change (decimal n +:+
            String (Ascii.Ascii false false false false false true false false) ("time" +:+ (if negb (n =? 1)%N then "s" else ""))
          = decimal m +:+
            String (Ascii.Ascii false false false false false true false false) ("time" +:+ (if negb (m =? 1)%N then "s" else "")))
    in H.
  apply digits_cancel in H as [H _]; auto using digits_decimal.
  now apply decimal_inj.
Qed.

(** X11. The counter line of a card reads ["Clicked: <n> time"] for a
    count of one and ["Clicked: <n> times"] for every other count, zero
    included, with [n] in decimal; and the line determines the count: two
    cards showing the same counter line hold the same count. *)
Theorem counter_line (props : Card.CardProps) (n : number) :
  Card.shown_counter <$> Card.shown (Card.CardComponent props n) =
    Some ("Clicked: " +:+ decimal n +:+ (if (n =? 1)%N then " time" else " times")) /\
  (forall props' m,
     Card.shown_counter <$> Card.shown (Card.CardComponent props' m) =
     Card.shown_counter <$> Card.shown (Card.CardComponent props n) ->
     m = n).
Proof.
  split.
  - rewrite shown_counter_Card. unfold counter_text.
    destruct (n =? 1)%N; reflexivity.
  - intros props' m H. rewrite !shown_counter_Card in H.
    apply (inj Some) in H. now apply counter_text_inj.
Qed.

Lemma counter_line_witness :
  let props := {| Card.title := "a"; Card.content := "b"; Card.className := None |} in
  Card.shown_counter <$> Card.shown (Card.CardComponent props 12%N) =
  Card.shown_counter <$> Card.shown (Card.CardComponent props 12%N) /\
  12%N = 12%N.
Proof.
  split; [reflexivity|].
  exact (proj2 (counter_line
                  {| Card.title := "a"; Card.content := "b"; Card.className := None |}
                  12%N)
               {| Card.title := "a"; Card.content := "b"; Card.className := None |}
               12%N eq_refl).
Defined.

(** X12. The message of the error raised for a response that is not ok
    identifies its status: two such responses make [fetchData] store the
    same error only if they have the same status. *)
Theorem http_error_identifies_status (r1 r2 : Response) :
  ok r1 = false -> ok r2 = false ->
  DataFetcher.fetchData_after_fetch (inr r1) =
  DataFetcher.fetchData_after_fetch (inr r2) ->
  status r1 = status r2.
Proof.
  intros H1 H2. unfold DataFetcher.fetchData_after_fetch, DataFetcher.try_after_fetch.
  rewrite H1, H2. simpl. intros H.
  assert (Hm : "HTTP error! status: " +:+ decimal (status r1) =
               "HTTP error! status: " +:+ decimal (status r2)) by congruence.
  apply (inj (String.append "HTTP error! status: ")) in Hm.
  now apply decimal_inj.
Qed.

Lemma http_error_identifies_status_witness :
  let r1 := {| status := 404; json := inl {| message := "a" |} |} in
  let r2 := {| status := 404; json := inr None |} in
  ok r1 = false /\ ok r2 = false /\
  DataFetcher.fetchData_after_fetch (inr r1) =
  DataFetcher.fetchData_after_fetch (inr r2) /\
  status r1 = status r2.
Proof.
  do 3 (split; [reflexivity|]).
  exact (http_error_identifies_status
           {| status := 404; json := inl {| message := "a" |} |}
           {| status := 404; json := inr None |} eq_refl eq_refl eq_refl).
Defined.

(** ** Button and card props *)

(** X13. The class attribute of a rendered button tells its variant:
    two buttons get the same classes exactly when they have the same
    variant, whatever their labels, handlers and disabled flags.  The
    variant touches nothing else: the label is the only child, and the
    handler and the disabled flag are passed on as given, absent ones
    staying absent. *)
Theorem Button_class_tells_variant (A : Type) (p1 p2 : Button.ButtonProps A) :
  (Button.r_className (Button.Button p1) = Button.r_className (Button.Button p2)
   <-> Button.variant p1 = Button.variant p2) /\
  Button.r_children (Button.Button p1) = [Text (Button.label p1)] /\
  Button.r_onClick (Button.Button p1) = Button.onClick p1 /\
  Button.r_disabled (Button.Button p1) = Button.disabled p1.
Proof.
  split; [|repeat split].
  destruct p1 as [v1 l1 h1 d1], p2 as [v2 l2 h2 d2]; simpl. split.
  - intros H. destruct v1, v2; try reflexivity;
      vm_compute in H; discriminate H.
  - intros ->. reflexivity.
Qed.


